(** * Timebar: the timer engine, the time codec, the preset editor and the
      dynamic colour bands, embedded from [main.ts] and [settings.ts]. *)

From Stdlib Require Import ZArith NArith List String Ascii Bool Lia Floats.
From stdpp Require Import base list.
Import ListNotations.

Set Warnings "-inexact-float".

(** ** JavaScript strings and the string primitives the program calls *)

Module JS.

(** A JavaScript string is a sequence of UTF-16 code units. *)
Definition jsstring := list N.

Definition ch (a : ascii) : N := N_of_ascii a.

(** An ASCII literal as a JavaScript string. *)
Definition js (s : string) : jsstring := map N_of_ascii (list_ascii_of_string s).

(** [\d] without the unicode flag: the ten ASCII digits. *)
Definition is_digit (c : N) : bool := ((48 <=? c) && (c <=? 57))%N.

(** WhiteSpace and LineTerminator code points, the ones [trim] strips. *)
Definition is_ws (c : N) : bool :=
  ((9 <=? c) && (c <=? 13) || (c =? 32) || (c =? 160) || (c =? 5760)
   || (8192 <=? c) && (c <=? 8202) || (c =? 8232) || (c =? 8233)
   || (c =? 8239) || (c =? 8287) || (c =? 12288) || (c =? 65279))%N.

Fixpoint trimStart (s : jsstring) : jsstring :=
  match s with
  | c :: s' => if is_ws c then trimStart s' else s
  | [] => []
  end.

Definition trimEnd (s : jsstring) : jsstring := rev (trimStart (rev s)).

(** [String.prototype.trim]. *)
Definition trim (s : jsstring) : jsstring := trimEnd (trimStart s).

(** *** Anchored regular expressions of the shape used by the parsers

    Both parsers match against [^ ... $] patterns made of capture groups
    over one character class with a bounded repetition, and of single
    characters. *)

Inductive CharClass : Type :=
| Digit               (* \d *)
| Lit (c : N).        (* one literal character *)

Inductive Piece : Type :=
| Group (cls : CharClass) (lo hi : nat)   (* ( cls{lo,hi} ), capturing *)
| Single (cls : CharClass).

Definition Regex := list Piece.

Definition in_class (cls : CharClass) (c : N) : bool :=
  match cls with
  | Digit => is_digit c
  | Lit d => (c =? d)%N
  end.

(** Exactly [k] characters of the class at the head of [s]. *)
Fixpoint take_class (cls : CharClass) (k : nat) (s : jsstring)
  : option (jsstring * jsstring) :=
  match k with
  | O => Some ([], s)
  | S k' =>
      match s with
      | c :: s' =>
          if in_class cls c then
            match take_class cls k' s' with
            | Some (g, rest) => Some (c :: g, rest)
            | None => None
            end
          else None
      | [] => None
      end
  end.

(** Backtracking match of the whole string ([^] and [$] anchors); a group
    is greedy: the longest repetition is tried first.  The result is the
    list of captures, [match[1]], [match[2]], ... *)
Fixpoint exec (r : Regex) (s : jsstring) : option (list jsstring) :=
  match r with
  | [] => match s with [] => Some [] | _ :: _ => None end
  | Single cls :: r' =>
      match s with
      | c :: s' => if in_class cls c then exec r' s' else None
      | [] => None
      end
  | Group cls lo hi :: r' =>
      (fix try (extra : nat) : option (list jsstring) :=
         let attempt :=
           match take_class cls (lo + extra) s with
           | Some (g, rest) =>
               match exec r' rest with
               | Some gs => Some (g :: gs)
               | None => None
               end
           | None => None
           end in
         match attempt with
         | Some res => Some res
         | None => match extra with O => None | S e => try e end
         end) (hi - lo)%nat
  end.

Fixpoint take_digits (s : jsstring) : jsstring :=
  match s with
  | c :: s' => if is_digit c then c :: take_digits s' else []
  | [] => []
  end.

Definition digit_value (c : N) : Z := Z.of_N (c - 48).

Definition decimal_value (ds : jsstring) : Z :=
  fold_left (fun acc c => 10 * acc + digit_value c)%Z ds 0%Z.

(** [parseInt(s, 10)]: leading white space is skipped, one sign is
    accepted, then the longest run of decimal digits is read.  [None]
    stands for [NaN] (no digit at all). *)
Definition parseInt (s : jsstring) : option Z :=
  let s1 := trimStart s in
  let '(neg, s2) :=
    match s1 with
    | c :: r => if (c =? 45)%N then (true, r)
                else if (c =? 43)%N then (false, r) else (false, s1)
    | [] => (false, s1)
    end in
  match take_digits s2 with
  | [] => None
  | ds => Some (if neg then - decimal_value ds else decimal_value ds)%Z
  end.

Fixpoint uint_units (d : Decimal.uint) : jsstring :=
  match d with
  | Decimal.Nil => []
  | Decimal.D0 d' => 48%N :: uint_units d'
  | Decimal.D1 d' => 49%N :: uint_units d'
  | Decimal.D2 d' => 50%N :: uint_units d'
  | Decimal.D3 d' => 51%N :: uint_units d'
  | Decimal.D4 d' => 52%N :: uint_units d'
  | Decimal.D5 d' => 53%N :: uint_units d'
  | Decimal.D6 d' => 54%N :: uint_units d'
  | Decimal.D7 d' => 55%N :: uint_units d'
  | Decimal.D8 d' => 56%N :: uint_units d'
  | Decimal.D9 d' => 57%N :: uint_units d'
  end.

(** [Number.prototype.toString] on an integer: decimal digits, with a
    leading minus sign below zero. *)
Definition toString (n : Z) : jsstring :=
  if (n <? 0)%Z then 45%N :: uint_units (N.to_uint (Z.to_N (- n)))
  else uint_units (N.to_uint (Z.to_N n)).

(** [s.padStart(n, fill)]. *)
Definition padStart (n : nat) (fill : jsstring) (s : jsstring) : jsstring :=
  match fill with
  | [] => s
  | _ :: _ =>
      let k := (n - length s)%nat in
      firstn k (concat (repeat fill k)) ++ s
  end.

(** [a === b] on strings. *)
Fixpoint str_eqb (a b : jsstring) : bool :=
  match a, b with
  | [], [] => true
  | x :: a', y :: b' => (x =? y)%N && str_eqb a' b'
  | _, _ => false
  end.

(** [parts.join(sep)]. *)
Fixpoint join (sep : jsstring) (parts : list jsstring) : jsstring :=
  match parts with
  | [] => []
  | [p] => p
  | p :: ps => p ++ sep ++ join sep ps
  end.

End JS.

(** ** What the two parsers return *)

(** The parsers return [null] on every failure; the tag records which
    branch returned it.  In [parseTimeInput] the branches are told apart by
    their [console.error] text: the two range messages and the negative
    message are [OutOfRange], "Total time cannot be zero" is
    [ZeroDuration], "Invalid time format..." is [InvalidFormat]. *)
Inductive ParseError : Type := InvalidFormat | OutOfRange | ZeroDuration.

(** [Seconds n] is a returned number, [Null e] a returned [null];
    [NotANumber] stands for the arithmetic on a [NaN] field, which no
    input reaches since every capture is a run of digits. *)
Inductive ParseResult : Type :=
| Seconds (n : Z)
| Null (e : ParseError)
| NotANumber.

(** ** The timer window ([main.ts]) *)

Module Main.
Import JS.
Local Open Scope Z_scope.

Inductive TimerMode : Type := COUNTDOWN | STOPWATCH.

Definition TimerMode_eqb (a b : TimerMode) : bool :=
  match a, b with
  | COUNTDOWN, COUNTDOWN | STOPWATCH, STOPWATCH => true
  | _, _ => false
  end.

Record TimerState : Type := mkState {
  mode : TimerMode;
  isRunning : bool;
  currentTime : Z;       (* in seconds *)
  totalTime : Z;         (* for countdown mode *)
  isEditMode : bool      (* for custom time input *)
}.

(** The module-level variables and the parts of the host the handlers act
    on: the [setInterval] table, the [time-input] elements of the document
    (in document order), the text of [timerDisplay], the [timer-complete]
    class, the pending 3-second timeouts, and counters for the calls to
    [playNotificationSound] and [showTimerWindow].  Button captions, the
    other style classes and the scale of the progress bar are display only
    and left out. *)
Record App : Type := mkApp {
  state : TimerState;
  intervalId : option nat;
  liveIntervals : list nat;
  nextHandle : nat;
  timeInputs : list jsstring;
  displayText : jsstring;
  timerComplete : bool;
  pendingTimeouts : nat;
  soundsPlayed : nat;
  windowShows : nat
}.

Definition set_mode (m : TimerMode) (s : TimerState) : TimerState :=
  mkState m (isRunning s) (currentTime s) (totalTime s) (isEditMode s).
Definition set_isRunning (b : bool) (s : TimerState) : TimerState :=
  mkState (mode s) b (currentTime s) (totalTime s) (isEditMode s).
Definition set_currentTime (c : Z) (s : TimerState) : TimerState :=
  mkState (mode s) (isRunning s) c (totalTime s) (isEditMode s).
Definition set_totalTime (t : Z) (s : TimerState) : TimerState :=
  mkState (mode s) (isRunning s) (currentTime s) t (isEditMode s).
Definition set_isEditMode (b : bool) (s : TimerState) : TimerState :=
  mkState (mode s) (isRunning s) (currentTime s) (totalTime s) b.

Definition with_state (f : TimerState -> TimerState) (a : App) : App :=
  mkApp (f (state a)) (intervalId a) (liveIntervals a) (nextHandle a)
        (timeInputs a) (displayText a) (timerComplete a)
        (pendingTimeouts a) (soundsPlayed a) (windowShows a).
Definition with_timerComplete (b : bool) (a : App) : App :=
  mkApp (state a) (intervalId a) (liveIntervals a) (nextHandle a)
        (timeInputs a) (displayText a) b
        (pendingTimeouts a) (soundsPlayed a) (windowShows a).
Definition with_timeInputs (l : list jsstring) (a : App) : App :=
  mkApp (state a) (intervalId a) (liveIntervals a) (nextHandle a)
        l (displayText a) (timerComplete a)
        (pendingTimeouts a) (soundsPlayed a) (windowShows a).

(** The [state] constant and the variables as the module creates them. *)
Definition initialState : TimerState := mkState COUNTDOWN false 180 180 false.

Definition initialApp : App :=
  mkApp initialState None [] 1%nat [] [] false 0%nat 0%nat 0%nat.

(** *** Display *)

(** [n.toString().padStart(2, "0")] *)
Definition pad2 (n : Z) : jsstring := padStart 2 (js "0") (toString n).

Definition hoursOf (t : Z) : Z := t / 3600.                (* Math.floor(t / 3600) *)
Definition minutesOf (t : Z) : Z := Z.rem t 3600 / 60.     (* Math.floor((t % 3600) / 60) *)
Definition secondsOf (t : Z) : Z := Z.rem t 60.            (* t % 60 *)

(** The text [updateDisplay] writes: HH:MM:SS from one hour on, MM:SS
    below. *)
Definition formatTime (t : Z) : jsstring :=
  if 0 <? hoursOf t
  then pad2 (hoursOf t) ++ js ":" ++ pad2 (minutesOf t) ++ js ":" ++ pad2 (secondsOf t)
  else pad2 (minutesOf t) ++ js ":" ++ pad2 (secondsOf t).

(** The seed [enterEditMode] writes into the input: always HH:MM:SS. *)
Definition formatEditSeed (t : Z) : jsstring :=
  pad2 (hoursOf t) ++ js ":" ++ pad2 (minutesOf t) ++ js ":" ++ pad2 (secondsOf t).

Definition updateDisplay (a : App) : App :=
  mkApp (state a) (intervalId a) (liveIntervals a) (nextHandle a)
        (timeInputs a) (formatTime (currentTime (state a))) (timerComplete a)
        (pendingTimeouts a) (soundsPlayed a) (windowShows a).

(** *** Parsing the custom time *)

(** /^(\d{1,2}):(\d{2}):(\d{2})$/ *)
Definition re_hms : Regex :=
  [Group Digit 1 2; Single (Lit (ch ":")); Group Digit 2 2;
   Single (Lit (ch ":")); Group Digit 2 2].

(** /^(\d{1,2}):(\d{2})$/ *)
Definition re_ms : Regex :=
  [Group Digit 1 2; Single (Lit (ch ":")); Group Digit 2 2].

Definition parseTimeInput (input : jsstring) : ParseResult :=
  let trimmed := trim input in
  (* Try HH:MM:SS format first *)
  match exec re_hms trimmed with
  | Some [g1; g2; g3] =>
      match parseInt g1, parseInt g2, parseInt g3 with
      | Some hours, Some minutes, Some seconds =>
          if (60 <=? minutes) || (60 <=? seconds) then Null OutOfRange
          else if (hours <? 0) || (minutes <? 0) || (seconds <? 0) then Null OutOfRange
          else
            let totalSeconds := hours * 3600 + minutes * 60 + seconds in
            if totalSeconds =? 0 then Null ZeroDuration
            else Seconds totalSeconds
      | _, _, _ => NotANumber
      end
  | _ =>
      (* Try MM:SS format (backward compatible) *)
      match exec re_ms trimmed with
      | Some [g1; g2] =>
          match parseInt g1, parseInt g2 with
          | Some minutes, Some seconds =>
              if 60 <=? seconds then Null OutOfRange
              else if (minutes <? 0) || (seconds <? 0) then Null OutOfRange
              else
                let totalSeconds := minutes * 60 + seconds in
                if totalSeconds =? 0 then Null ZeroDuration
                else Seconds totalSeconds
          | _, _ => NotANumber
          end
      | _ => Null InvalidFormat
      end
  end.

(** *** The engine *)

Definition pauseTimer (a : App) : App :=
  if negb (isRunning (state a)) then a
  else
    let a1 := with_state (set_isRunning false) a in
    match intervalId a1 with
    | Some h =>
        (* clearInterval(intervalId); intervalId = null *)
        mkApp (state a1) None (filter (fun k => negb (Nat.eqb k h)) (liveIntervals a1))
              (nextHandle a1) (timeInputs a1) (displayText a1) (timerComplete a1)
              (pendingTimeouts a1) (soundsPlayed a1) (windowShows a1)
    | None => a1
    end.

Definition stopTimer (a : App) : App := pauseTimer a.

Definition playNotificationSound (a : App) : App :=
  mkApp (state a) (intervalId a) (liveIntervals a) (nextHandle a)
        (timeInputs a) (displayText a) (timerComplete a)
        (pendingTimeouts a) (S (soundsPlayed a)) (windowShows a).

Definition showTimerWindow (a : App) : App :=
  mkApp (state a) (intervalId a) (liveIntervals a) (nextHandle a)
        (timeInputs a) (displayText a) (timerComplete a)
        (pendingTimeouts a) (soundsPlayed a) (S (windowShows a)).

(** [setTimeout(..., 3000)]: one more pending timeout. *)
Definition scheduleClear (a : App) : App :=
  mkApp (state a) (intervalId a) (liveIntervals a) (nextHandle a)
        (timeInputs a) (displayText a) (timerComplete a)
        (S (pendingTimeouts a)) (soundsPlayed a) (windowShows a).

Definition onTimerComplete (a : App) : App :=
  scheduleClear (with_timerComplete true (playNotificationSound (stopTimer a))).

(** The body of the callback given to [setInterval]. *)
Definition intervalCallback (a : App) : App :=
  match mode (state a) with
  | COUNTDOWN =>
      let a1 := with_state (set_currentTime (Z.max 0 (currentTime (state a) - 1))) a in
      let a2 := if currentTime (state a1) =? 0 then onTimerComplete a1 else a1 in
      updateDisplay a2
  | STOPWATCH =>
      updateDisplay (with_state (set_currentTime (currentTime (state a) + 1)) a)
  end.

Definition startTimer (a : App) : App :=
  if isRunning (state a) then a
  else
    let a1 := with_state (set_isRunning true) a in
    let h := nextHandle a1 in
    mkApp (state a1) (Some h) (liveIntervals a1 ++ [h]) (S h)
          (timeInputs a1) (displayText a1) (timerComplete a1)
          (pendingTimeouts a1) (soundsPlayed a1) (windowShows a1).

Definition toggleTimer (a : App) : App :=
  if isRunning (state a) then pauseTimer a else startTimer a.

Definition resetTimer (a : App) : App :=
  let a1 := with_timerComplete false (stopTimer a) in
  let s := state a1 in
  updateDisplay
    (with_state (set_currentTime
                   (if TimerMode_eqb (mode s) COUNTDOWN then totalTime s else 0)) a1).

Definition enterEditMode (a : App) : App :=
  let a1 := if isRunning (state a) then pauseTimer a else a in
  let a2 := with_state (set_isEditMode true) a1 in
  (* insertBefore(input, timerDisplay): after the inputs already there *)
  with_timeInputs (timeInputs a2 ++ [formatEditSeed (currentTime (state a2))]) a2.

Definition exitEditMode (save : bool) (a : App) : App :=
  (* document.getElementById("time-input"): the first one, if any *)
  let input := head (timeInputs a) in
  let a1 :=
    match input with
    | Some inputValue =>
        if save then
          match parseTimeInput inputValue with
          | Seconds parsedTime =>
              with_state (fun s => set_totalTime parsedTime (set_currentTime parsedTime s)) a
          | NotANumber | Null _ => a
          end
        else a
    | None => a
    end in
  (* input.remove() *)
  let a2 := with_timeInputs (tail (timeInputs a1)) a1 in
  updateDisplay (with_state (set_isEditMode false) a2).

Definition toggleMode (a : App) : App :=
  let a1 := if isEditMode (state a) then exitEditMode false a else a in
  let a2 := stopTimer a1 in
  let a3 := with_state (fun s =>
              set_mode (if TimerMode_eqb (mode s) COUNTDOWN then STOPWATCH else COUNTDOWN) s) a2 in
  let a4 := with_state (fun s =>
              set_currentTime (if TimerMode_eqb (mode s) COUNTDOWN then totalTime s else 0) s) a3 in
  updateDisplay a4.

Definition setTime (seconds : Z) (a : App) : App :=
  let a1 := if isEditMode (state a) then exitEditMode false a else a in
  let a2 := stopTimer a1 in
  let a3 := with_state (fun s => set_totalTime seconds (set_currentTime seconds s)) a2 in
  showTimerWindow (updateDisplay a3).

(** *** Events delivered by the host *)

(** One live interval fires: its callback runs, unless the handle has been
    cleared in the meantime. *)
Definition fire (h : nat) (a : App) : App :=
  if existsb (Nat.eqb h) (liveIntervals a) then intervalCallback a else a.

(** One second passes: every interval that is live fires once. *)
Definition tick (a : App) : App :=
  fold_left (fun acc h => fire h acc) (liveIntervals a) a.

(** A 3-second timeout set by [onTimerComplete] expires. *)
Definition timeoutExpires (a : App) : App :=
  match pendingTimeouts a with
  | O => a
  | S n =>
      mkApp (state a) (intervalId a) (liveIntervals a) (nextHandle a)
            (timeInputs a) (displayText a) false
            n (soundsPlayed a) (windowShows a)
  end.

(** The user replaces the text of an input; the [input] listener then
    strips everything but digits and colons. *)
Definition filterTyped (v : jsstring) : jsstring :=
  filter (fun c => is_digit c || (c =? ch ":")%N) v.

Fixpoint ticks (n : nat) (a : App) : App :=
  match n with
  | O => a
  | S n' => ticks n' (tick a)
  end.

(** *** Dynamic colour *)

Local Open Scope float_scope.

(** The ten gradients of [updateDynamicColor], from full to empty. *)
Definition deepGreen   : jsstring := js "linear-gradient(90deg, #065f46 0%, #10b981 100%)".
Definition brightGreen : jsstring := js "linear-gradient(90deg, #16a34a 0%, #4ade80 100%)".
Definition lightGreen  : jsstring := js "linear-gradient(90deg, #22c55e 0%, #86efac 100%)".
Definition yellowGreen : jsstring := js "linear-gradient(90deg, #65a30d 0%, #a3e635 100%)".
Definition yellow      : jsstring := js "linear-gradient(90deg, #ca8a04 0%, #fbbf24 100%)".
Definition lightOrange : jsstring := js "linear-gradient(90deg, #ea580c 0%, #fb923c 100%)".
Definition orange      : jsstring := js "linear-gradient(90deg, #dc2626 0%, #f97316 100%)".
Definition orangeRed   : jsstring := js "linear-gradient(90deg, #b91c1c 0%, #ef4444 100%)".
Definition red         : jsstring := js "linear-gradient(90deg, #991b1b 0%, #dc2626 100%)".
Definition deepRed     : jsstring := js "linear-gradient(90deg, #7f1d1d 0%, #b91c1c 100%)".

(** The chain of comparisons; [a <? p] is [p > a] on binary64 numbers. *)
Definition dynamicGradient (progress : float) : jsstring :=
  if 0.9 <? progress then deepGreen
  else if 0.8 <? progress then brightGreen
  else if 0.7 <? progress then lightGreen
  else if 0.6 <? progress then yellowGreen
  else if 0.5 <? progress then yellow
  else if 0.4 <? progress then lightOrange
  else if 0.3 <? progress then orange
  else if 0.2 <? progress then orangeRed
  else if 0.1 <? progress then red
  else deepRed.

(** [updateDynamicColor]: the new value of [--bar-color], if the stored
    theme is the dynamic one. *)
Definition updateDynamicColor (theme : option jsstring) (progress : float)
  : option jsstring :=
  match theme with
  | Some t => if str_eqb t (js "dynamic")
              then Some (dynamicGradient progress) else None
  | None => None
  end.

End Main.

(** ** The preset editor window ([settings.ts]) *)

Module SettingsWindow.
Import JS.
Local Open Scope Z_scope.

Record PresetTime : Type := mkPreset {
  seconds : Z;
  label : jsstring
}.

(** The record kept under the key "settings" of the store; a field that
    may be missing is an option. *)
Record Settings : Type := mkSettings {
  presets : option (list PresetTime);
  theme : option jsstring;
  barColor : option jsstring;
  backgroundColor : option jsstring;
  textColor : option jsstring;
  startPauseKey : option jsstring;
  resetKey : option jsstring
}.

(** A [.preset-input] element: its text and its two style classes. *)
Record InputEl : Type := mkInput {
  value : jsstring;
  classError : bool;
  classSuccess : bool
}.

Inductive Alert : Type :=
| AlertLastPreset        (* "You must have at least one preset!" *)
| AlertInvalidFormats    (* "Please fix invalid time formats before saving." *)
| AlertNoPreset.         (* "Please add at least one preset time." *)

(** The window: the [presets] variable, the stored settings, the inputs
    on the page, the alerts shown, the payloads emitted as
    "presets-updated", and whether the window was closed. *)
Record Window : Type := mkWindow {
  presetsVar : list PresetTime;
  stored : option Settings;
  inputs : list InputEl;
  alerts : list Alert;
  emitted : list (list PresetTime);
  closed : bool
}.

Definition DEFAULT_PRESETS : list PresetTime :=
  [ mkPreset 180 (js "3 minutes");
    mkPreset 300 (js "5 minutes");
    mkPreset 1500 (js "25 minutes (Pomodoro)") ].

Definition pad2 (n : Z) : jsstring := padStart 2 (js "0") (toString n).

Definition formatSecondsToHHMMSS (totalSeconds : Z) : jsstring :=
  let hours := totalSeconds / 3600 in
  let minutes := Z.rem totalSeconds 3600 / 60 in
  let secs := Z.rem totalSeconds 60 in
  pad2 hours ++ js ":" ++ pad2 minutes ++ js ":" ++ pad2 secs.

(** /^(\d{1,2}):(\d{2}):(\d{2})$/ *)
Definition re_hms : Regex :=
  [Group Digit 1 2; Single (Lit (ch ":")); Group Digit 2 2;
   Single (Lit (ch ":")); Group Digit 2 2].

(** The [null] returns carry the tag of their branch: empty text and no
    match are [InvalidFormat], the range test is [OutOfRange], a zero
    total is [ZeroDuration]. *)
Definition parseHHMMSS (input : jsstring) : ParseResult :=
  let trimmed := trim input in
  match trimmed with
  | [] => Null InvalidFormat
  | _ :: _ =>
      match exec re_hms trimmed with
      | Some [g1; g2; g3] =>
          match parseInt g1, parseInt g2, parseInt g3 with
          | Some hours, Some minutes, Some secs =>
              if (60 <=? minutes) || (60 <=? secs)
                 || (hours <? 0) || (minutes <? 0) || (secs <? 0)
              then Null OutOfRange
              else
                let totalSeconds := hours * 3600 + minutes * 60 + secs in
                if totalSeconds =? 0 then Null ZeroDuration else Seconds totalSeconds
          | _, _, _ => NotANumber
          end
      | _ => Null InvalidFormat
      end
  end.

Definition generateLabel (secondsIn : Z) : jsstring :=
  let hours := secondsIn / 3600 in
  let minutes := Z.rem secondsIn 3600 / 60 in
  let secs := Z.rem secondsIn 60 in
  let parts0 : list jsstring := [] in
  let parts1 :=
    if 0 <? hours
    then parts0 ++ [if hours =? 1 then js "1 hour" else toString hours ++ js " hours"]
    else parts0 in
  let parts2 :=
    if 0 <? minutes
    then parts1 ++ [if minutes =? 1 then js "1 minute" else toString minutes ++ js " minutes"]
    else parts1 in
  let parts3 :=
    if (0 <? secs) || (length parts2 =? 0)%nat
    then parts2 ++ [if secs =? 1 then js "1 second" else toString secs ++ js " seconds"]
    else parts2 in
  join (js ", ") parts3.

Definition with_inputs (l : list InputEl) (w : Window) : Window :=
  mkWindow (presetsVar w) (stored w) l (alerts w) (emitted w) (closed w).
Definition with_presets (l : list PresetTime) (w : Window) : Window :=
  mkWindow l (stored w) (inputs w) (alerts w) (emitted w) (closed w).
Definition alert (m : Alert) (w : Window) : Window :=
  mkWindow (presetsVar w) (stored w) (inputs w) (alerts w ++ [m]) (emitted w) (closed w).

(** [presets = settings?.presets || DEFAULT_PRESETS] *)
Definition loadPresets (w : Window) : Window :=
  with_presets
    (match stored w with
     | Some s => match presets s with Some l => l | None => DEFAULT_PRESETS end
     | None => DEFAULT_PRESETS
     end) w.

(** One input per preset, filled with its time as HH:MM:SS. *)
Definition renderPresets (w : Window) : Window :=
  with_inputs
    (map (fun p => mkInput (formatSecondsToHHMMSS (seconds p)) false false) (presetsVar w)) w.

Definition addPreset (w : Window) : Window :=
  renderPresets (with_presets (presetsVar w ++ [mkPreset 600 (js "10 min")]) w).

Inductive DeleteOutcome : Type :=
| Deleted
| LastPresetError     (* the alert branch *)
| Declined            (* [confirm] answered no *)
| DeleteThrows.       (* [presets[index]] is undefined *)

(** [confirmed] is the answer the user gives to the [confirm] dialog. *)
Definition deletePreset (index : nat) (confirmed : bool) (w : Window)
  : DeleteOutcome * Window :=
  if (length (presetsVar w) =? 1)%nat then (LastPresetError, alert AlertLastPreset w)
  else
    match presetsVar w !! index with
    | None => (DeleteThrows, w)
    | Some _ =>
        if confirmed
        then (Deleted, renderPresets (with_presets (delete index (presetsVar w)) w))
        else (Declined, w)
    end.

Definition validateInput (input : InputEl) : InputEl * bool :=
  let v := trim (value input) in
  match v with
  | [] => (mkInput (value input) true false, false)
  | _ :: _ =>
      match parseHHMMSS v with
      | Null _ => (mkInput (value input) true false, false)
      | Seconds _ | NotANumber => (mkInput (value input) false true, true)
      end
  end.

(** The body of [inputs.forEach] in [savePresets], threading
    [newPresets], [hasError] and the inputs already visited. *)
Definition saveInput (acc : list PresetTime * bool * list InputEl) (input : InputEl)
  : list PresetTime * bool * list InputEl :=
  let '(newPresets, hasError, seen) := acc in
  let v := trim (value input) in
  match v with
  | [] => (newPresets, true, seen ++ [mkInput (value input) true (classSuccess input)])
  | _ :: _ =>
      let '(input', ok) := validateInput input in
      if negb ok then (newPresets, true, seen ++ [input'])
      else
        match parseHHMMSS v with
        | Seconds secs =>
            (newPresets ++ [mkPreset secs (generateLabel secs)], hasError, seen ++ [input'])
        | Null _ | NotANumber => (newPresets, hasError, seen ++ [input'])
        end
  end.

Inductive SaveOutcome : Type :=
| Saved
| InvalidEntries      (* "Please fix invalid time formats before saving." *)
| EmptyListError.     (* "Please add at least one preset time." *)

Definition defaultSettings : Settings :=
  mkSettings (Some []) None (Some []) (Some []) (Some [])
             (Some (js "PageUp")) (Some (js "PageDown")).

Definition set_presets (l : list PresetTime) (s : Settings) : Settings :=
  mkSettings (Some l) (theme s) (barColor s) (backgroundColor s) (textColor s)
             (startPauseKey s) (resetKey s).

(** [savePresets], with the store answering every call. *)
Definition savePresets (w : Window) : SaveOutcome * Window :=
  let '(newPresets, hasError, inputs') := fold_left saveInput (inputs w) ([], false, []) in
  let w1 := with_inputs inputs' w in
  if hasError then (InvalidEntries, alert AlertInvalidFormats w1)
  else if (length newPresets =? 0)%nat then (EmptyListError, alert AlertNoPreset w1)
  else
    let settings :=
      match stored w1 with Some s => s | None => defaultSettings end in
    (Saved,
     mkWindow (presetsVar w1) (Some (set_presets newPresets settings)) (inputs w1)
              (alerts w1) (emitted w1 ++ [newPresets]) true).

End SettingsWindow.

(** ** Vocabulary of the statements *)

Import JS Main.

(** A field of the time text: between [lo] and [hi] characters, all digits. *)
Definition is_field (lo hi : nat) (g : jsstring) : bool :=
  (lo <=? length g)%nat && (length g <=? hi)%nat && forallb is_digit g.

(** The text "H:MM:SS" or "HH:MM:SS" built from three fields. *)
Definition hms_text (h m s : jsstring) : jsstring := h ++ js ":" ++ m ++ js ":" ++ s.

(** The text "M:SS" or "MM:SS" built from two fields. *)
Definition ms_text (m s : jsstring) : jsstring := m ++ js ":" ++ s.

(** The two accepted forms of a time text, by their fields. *)
Inductive TimeText : Type :=
| HMS (h m s : jsstring)     (* H{1,2}:MM:SS *)
| MS (m s : jsstring).       (* M{1,2}:SS *)

Definition text_of (t : TimeText) : jsstring :=
  match t with
  | HMS h m s => hms_text h m s
  | MS m s => ms_text m s
  end.

Definition well_shaped (t : TimeText) : bool :=
  match t with
  | HMS h m s => is_field 1 2 h && is_field 2 2 m && is_field 2 2 s
  | MS m s => is_field 1 2 m && is_field 2 2 s
  end.

Definition is_hms (t : TimeText) : bool :=
  match t with HMS _ _ _ => true | MS _ _ => false end.

Definition hours_field (t : TimeText) : Z :=
  match t with HMS h _ _ => decimal_value h | MS _ _ => 0%Z end.
Definition minutes_field (t : TimeText) : Z :=
  match t with HMS _ m _ => decimal_value m | MS m _ => decimal_value m end.
Definition seconds_field (t : TimeText) : Z :=
  match t with HMS _ _ s => decimal_value s | MS _ s => decimal_value s end.

(** The total the parsers compute from the fields. *)
Definition total_of (t : TimeText) : Z :=
  (hours_field t * 3600 + minutes_field t * 60 + seconds_field t)%Z.

(** What [parseTimeInput] answers once the three fields are known. *)
Definition classify_hms (hours minutes seconds : Z) : ParseResult :=
  if ((60 <=? minutes) || (60 <=? seconds))%Z then Null OutOfRange
  else if (hours * 3600 + minutes * 60 + seconds =? 0)%Z then Null ZeroDuration
  else Seconds (hours * 3600 + minutes * 60 + seconds)%Z.

(** The same for the two-field form: only the seconds are range-checked. *)
Definition classify_ms (minutes seconds : Z) : ParseResult :=
  if (60 <=? seconds)%Z then Null OutOfRange
  else if (minutes * 60 + seconds =? 0)%Z then Null ZeroDuration
  else Seconds (minutes * 60 + seconds)%Z.

(** What the parser answers on a text of either form. *)
Definition classify (t : TimeText) : ParseResult :=
  match t with
  | HMS h m s => classify_hms (decimal_value h) (decimal_value m) (decimal_value s)
  | MS m s => classify_ms (decimal_value m) (decimal_value s)
  end.

(** [pad2] writes two digits that read back as the number. *)
Definition pad2_ok (n : Z) : bool :=
  is_field 2 2 (pad2 n) && (decimal_value (pad2 n) =? n)%Z.

(** The interval table and the running flag agree: while running exactly
    the interval held in [intervalId] is live, otherwise none is. *)
Definition coherent (a : App) : Prop :=
  match intervalId a with
  | Some h => isRunning (state a) = true /\ liveIntervals a = [h]
  | None => isRunning (state a) = false /\ liveIntervals a = []
  end.

(** The bound on the countdown, kept together with the sign of the target
    so that it survives a stay in stopwatch mode. *)
Definition countdown_bounds (a : App) : Prop :=
  (0 <= totalTime (state a))%Z /\
  (mode (state a) = COUNTDOWN ->
   (0 <= currentTime (state a) <= totalTime (state a))%Z).

(** What the host can deliver to the timer window. *)
Inductive Event : Type :=
| EvToggleTimer
| EvReset
| EvTick
| EvToggleMode
| EvSetTime (seconds : Z)
| EvEnterEdit
| EvExitEdit (save : bool)
| EvTyped (i : nat) (v : jsstring)
| EvTimeout
| EvShow.

Definition step (e : Event) (a : App) : App :=
  match e with
  | EvToggleTimer => toggleTimer a
  | EvReset => resetTimer a
  | EvTick => tick a
  | EvToggleMode => toggleMode a
  | EvSetTime s => setTime s a
  | EvEnterEdit => enterEditMode a
  | EvExitEdit save => exitEditMode save a
  | EvTyped i v => with_timeInputs (<[i := filterTyped v]> (timeInputs a)) a
  | EvTimeout => timeoutExpires a
  | EvShow => showTimerWindow a
  end.

Definition run (evs : list Event) (a : App) : App := fold_left (fun acc e => step e acc) evs a.

(** [setTime] is given a non-negative number of seconds. *)
Definition nonneg_event (e : Event) : Prop :=
  match e with
  | EvSetTime s => (0 <= s)%Z
  | _ => True
  end.


(** The times of the program are binary64 numbers: on integers, adding and
    subtracting 1 is exact up to 2^53. The model keeps the times in Z, and
    the statements that count ticks stay within this range. *)
Definition max_exact : Z := (2 ^ 53)%Z.

(** A countdown of three seconds, not started. *)
Definition three_second_countdown : App :=
  with_state (fun s => set_totalTime 3%Z (set_currentTime 3%Z s)) initialApp.

(** A countdown stopped at 45 of 120 seconds. *)
Definition countdown_45_of_120 : App :=
  with_state (fun s => set_totalTime 120%Z (set_currentTime 45%Z s)) initialApp.

(** An entry of the preset editor that [parseHHMMSS] turns down. *)
Definition invalid_entry (i : SettingsWindow.InputEl) : bool :=
  match SettingsWindow.parseHHMMSS (SettingsWindow.value i) with
  | Null _ => true
  | Seconds _ | NotANumber => false
  end.

(** The presets [savePresets] builds from the inputs that pass. *)
Definition presets_of (ins : list SettingsWindow.InputEl) : list SettingsWindow.PresetTime :=
  flat_map (fun i =>
              match SettingsWindow.parseHHMMSS (SettingsWindow.value i) with
              | Seconds n => [SettingsWindow.mkPreset n (SettingsWindow.generateLabel n)]
              | Null _ | NotANumber => []
              end) ins.

(** The three built-in presets, shown in the editor. *)
Definition defaultWindow : SettingsWindow.Window :=
  SettingsWindow.renderPresets
    (SettingsWindow.loadPresets (SettingsWindow.mkWindow [] None [] [] [] false)).

(** The ten gradients in the order of the chain, with their thresholds. *)
Definition bands : list jsstring :=
  [deepGreen; brightGreen; lightGreen; yellowGreen; yellow;
   lightOrange; orange; orangeRed; red; deepRed].

Definition thresholds : list float :=
  [0.9; 0.8; 0.7; 0.6; 0.5; 0.4; 0.3; 0.2; 0.1]%float.

(** The band of a ratio, read off the table: the first threshold the
    ratio exceeds, the last band when it exceeds none. *)
Fixpoint band_index (ts : list float) (p : float) : nat :=
  match ts with
  | [] => O
  | t :: ts' => if (t <? p)%float then O else S (band_index ts' p)
  end.

(** ** Themes, stored settings and the tray ([main.ts]) *)

Module MainShell.
Import JS Main.
Local Open Scope Z_scope.

Record Theme : Type := mkTheme {
  name : jsstring;
  barColor : jsstring;
  backgroundColor : jsstring;
  textColor : jsstring
}.

(** The [themes] table, by its own keys in the order of the source. *)
Definition themes : list (jsstring * Theme) :=
  [ (js "blue",
     mkTheme (js "Ocean Blue")
       (js "linear-gradient(90deg, #1e3c72 0%, #2a5298 50%, #7e22ce 100%)")
       (js "transparent") (js "#ffffff"));
    (js "green",
     mkTheme (js "Forest Green")
       (js "linear-gradient(90deg, #134e4a 0%, #16a34a 50%, #84cc16 100%)")
       (js "transparent") (js "#ffffff"));
    (js "purple",
     mkTheme (js "Sunset Purple")
       (js "linear-gradient(90deg, #667eea 0%, #764ba2 100%)")
       (js "transparent") (js "#ffffff"));
    (js "orange",
     mkTheme (js "Fire Orange")
       (js "linear-gradient(90deg, #dc2626 0%, #f97316 50%, #fbbf24 100%)")
       (js "transparent") (js "#ffffff"));
    (js "red",
     mkTheme (js "Cherry Red")
       (js "linear-gradient(90deg, #7f1d1d 0%, #dc2626 50%, #f87171 100%)")
       (js "transparent") (js "#ffffff"));
    (js "dark",
     mkTheme (js "Dark Matter")
       (js "linear-gradient(90deg, #0f172a 0%, #1e293b 50%, #334155 100%)")
       (js "transparent") (js "#e2e8f0"));
    (js "light",
     mkTheme (js "Sky Light")
       (js "linear-gradient(90deg, #0ea5e9 0%, #38bdf8 50%, #7dd3fc 100%)")
       (js "transparent") (js "#ffffff"));
    (js "dynamic",
     mkTheme (js "Dynamic (10 Colors)") (js "dynamic") (js "transparent") (js "#ffffff"));
    (js "transparent",
     mkTheme (js "Crystal Clear") (js "rgba(255, 255, 255, 0.25)")
       (js "transparent") (js "#ffffff")) ].

(** [themes[themeName]] on the keys of the table itself; a name that the
    object only inherits (such as "constructor") is outside the table. *)
Fixpoint lookupTheme_in (table : list (jsstring * Theme)) (themeName : jsstring)
  : option Theme :=
  match table with
  | [] => None
  | (k, th) :: rest => if str_eqb themeName k then Some th else lookupTheme_in rest themeName
  end.

Definition lookupTheme (themeName : jsstring) : option Theme :=
  lookupTheme_in themes themeName.

(** The timer window with what surrounds the engine: the record under the
    key "settings" of the store (the same one the preset editor writes),
    the three CSS variables, the [theme-transparent] class and the presets
    last sent to [rebuild_tray_menu]. *)
Record Shell : Type := mkShell {
  app : App;
  store : option SettingsWindow.Settings;
  cssBarColor : option jsstring;
  cssBackgroundColor : option jsstring;
  cssTextColor : option jsstring;
  themeTransparent : bool;
  trayMenu : option (list SettingsWindow.PresetTime)
}.

Definition with_app (f : App -> App) (sh : Shell) : Shell :=
  mkShell (f (app sh)) (store sh) (cssBarColor sh) (cssBackgroundColor sh)
          (cssTextColor sh) (themeTransparent sh) (trayMenu sh).

Definition with_trayMenu (l : list SettingsWindow.PresetTime) (sh : Shell) : Shell :=
  mkShell (app sh) (store sh) (cssBarColor sh) (cssBackgroundColor sh)
          (cssTextColor sh) (themeTransparent sh) (Some l).

(** The window as [init] finds it, over a given store. *)
Definition initialShell (stored : option SettingsWindow.Settings) : Shell :=
  mkShell initialApp stored None None None false None.

Definition applyTheme (themeName : jsstring) (sh : Shell) : Shell :=
  match lookupTheme themeName with
  | None => sh                                  (* "Theme not found" *)
  | Some th =>
      mkShell (showTimerWindow (app sh))
        (* store.set("settings", { theme, barColor, backgroundColor,
           textColor, startPauseKey, resetKey }) *)
        (Some (SettingsWindow.mkSettings None (Some themeName)
                 (Some (barColor th)) (Some (backgroundColor th)) (Some (textColor th))
                 (Some (js "PageUp")) (Some (js "PageDown"))))
        (Some (barColor th)) (Some (backgroundColor th)) (Some (textColor th))
        (str_eqb themeName (js "transparent"))
        (trayMenu sh)
  end.

(** The built-in presets as [loadSettings] writes them. *)
Definition loadDefaults : list SettingsWindow.PresetTime :=
  [ SettingsWindow.mkPreset 180 (js "3 minutes");
    SettingsWindow.mkPreset 300 (js "5 minutes");
    SettingsWindow.mkPreset 1500 (js "25 minutes (Pomodoro)") ].

(** The built-in presets as the "preset-selected" listener writes them. *)
Definition selectDefaults : list SettingsWindow.PresetTime :=
  [ SettingsWindow.mkPreset 180 (js "3 minutes");
    SettingsWindow.mkPreset 300 (js "5 minutes");
    SettingsWindow.mkPreset 1500 (js "25 minutes") ].

(** A string option as a condition: missing and empty are false. *)
Definition truthy (o : option jsstring) : bool :=
  match o with
  | Some (_ :: _) => true
  | Some [] | None => false
  end.

(** [if (v) setProperty(..., v)] *)
Definition setIfTruthy (v current : option jsstring) : option jsstring :=
  if truthy v then v else current.

(** [loadSettings], with the store answering. *)
Definition loadSettings (sh : Shell) : Shell :=
  match store sh with
  | Some settings =>
      let sh1 :=
        match SettingsWindow.theme settings with
        | Some themeName =>
            if truthy (Some themeName) &&
               match lookupTheme themeName with Some _ => true | None => false end
            then applyTheme themeName sh
            else
              mkShell (app sh) (store sh)
                (setIfTruthy (SettingsWindow.barColor settings) (cssBarColor sh))
                (setIfTruthy (SettingsWindow.backgroundColor settings) (cssBackgroundColor sh))
                (setIfTruthy (SettingsWindow.textColor settings) (cssTextColor sh))
                (themeTransparent sh) (trayMenu sh)
        | None =>
            mkShell (app sh) (store sh)
              (setIfTruthy (SettingsWindow.barColor settings) (cssBarColor sh))
              (setIfTruthy (SettingsWindow.backgroundColor settings) (cssBackgroundColor sh))
              (setIfTruthy (SettingsWindow.textColor settings) (cssTextColor sh))
              (themeTransparent sh) (trayMenu sh)
        end in
      (* the presets are those of the record read before the theme was applied *)
      with_trayMenu
        (match SettingsWindow.presets settings with
         | Some l => l
         | None => loadDefaults
         end) sh1
  | None => with_trayMenu loadDefaults (applyTheme (js "blue") sh)
  end.

(** The "preset-selected" listener, with the store answering. *)
Definition presetSelected (presetIndex : Z) (sh : Shell) : Shell :=
  let presets :=
    match store sh with
    | Some settings =>
        match SettingsWindow.presets settings with
        | Some l => l
        | None => selectDefaults
        end
    | None => selectDefaults
    end in
  if (0 <=? presetIndex) && (presetIndex <? Z.of_nat (length presets)) then
    match presets !! Z.to_nat presetIndex with
    | Some p => with_app (setTime (SettingsWindow.seconds p)) sh
    | None => sh
    end
  else sh.                                       (* "Invalid preset index" *)

(** The "presets-updated" listener: the tray menu is rebuilt from the
    payload. *)
Definition presetsUpdated (payload : list SettingsWindow.PresetTime) (sh : Shell) : Shell :=
  with_trayMenu payload sh.

(** The preset editor saves into the store the timer window reads. *)
Definition editorSaves (w : SettingsWindow.Window) (sh : Shell) : Shell :=
  match SettingsWindow.savePresets w with
  | (SettingsWindow.Saved, w') =>
      presetsUpdated
        (match SettingsWindow.stored w' with
         | Some s => match SettingsWindow.presets s with Some l => l | None => [] end
         | None => []
         end)
        (mkShell (app sh) (SettingsWindow.stored w') (cssBarColor sh)
                 (cssBackgroundColor sh) (cssTextColor sh) (themeTransparent sh)
                 (trayMenu sh))
  | (_, _) => sh
  end.

End MainShell.

(** ** Vocabulary of the further statements *)

(** The text of the display is the one of the current time. *)
Definition display_in_sync (a : App) : Prop :=
  displayText a = formatTime (currentTime (state a)).

(** Edit mode comes with an input on the page. *)
Definition editing_has_input (a : App) : Prop :=
  isEditMode (state a) = true -> timeInputs a <> [].

(** The preset [savePresets] stores for a duration: the label is made
    anew from the seconds. *)
Definition relabel (p : SettingsWindow.PresetTime) : SettingsWindow.PresetTime :=
  SettingsWindow.mkPreset (SettingsWindow.seconds p)
    (SettingsWindow.generateLabel (SettingsWindow.seconds p)).

(** The input [renderPresets] draws for a preset. *)
Definition render (p : SettingsWindow.PresetTime) : SettingsWindow.InputEl :=
  SettingsWindow.mkInput
    (SettingsWindow.formatSecondsToHHMMSS (SettingsWindow.seconds p)) false false.

(** The seconds of the built-in presets of the "preset-selected" listener. *)
Definition defaultSeconds (presetIndex : Z) : option Z :=
  if (presetIndex =? 0)%Z then Some 180%Z
  else if (presetIndex =? 1)%Z then Some 300%Z
  else if (presetIndex =? 2)%Z then Some 1500%Z
  else None.

(** The presets in the store of the timer window, if any. *)
Definition storedPresets (sh : MainShell.Shell) : option (list SettingsWindow.PresetTime) :=
  match MainShell.store sh with
  | Some s => SettingsWindow.presets s
  | None => None
  end.

(** The timer window at its start, over a store that holds these presets
    and nothing else. *)
Definition shell_with (l : list SettingsWindow.PresetTime) : MainShell.Shell :=
  MainShell.initialShell (Some (SettingsWindow.mkSettings (Some l) None None None None None None)).

(** * Properties *)

(** ** Digits, white space and the capture groups *)

Lemma is_digit_range c : is_digit c = true <-> (48 <= c <= 57)%N.
Proof.
  unfold is_digit. rewrite andb_true_iff, !N.leb_le. tauto.
Qed.

Lemma digit_not_ws c : is_digit c = true -> is_ws c = false.
Proof.
  rewrite is_digit_range. intros Hc.
  destruct (is_ws c) eqn:E; [|reflexivity].
  unfold is_ws in E.
  repeat (rewrite ?orb_true_iff, ?andb_true_iff, ?N.eqb_eq, ?N.leb_le in E).
  lia.
Qed.

Lemma digit_neq c d :
  is_digit c = true -> is_digit d = false -> (c =? d)%N = false.
Proof.
  intros Hc Hd. apply N.eqb_neq. intros ->. congruence.
Qed.

Lemma digit_value_range c : is_digit c = true -> (0 <= digit_value c <= 9)%Z.
Proof.
  rewrite is_digit_range. unfold digit_value. lia.
Qed.

Lemma decimal_value_snoc ds c :
  decimal_value (ds ++ [c]) = (10 * decimal_value ds + digit_value c)%Z.
Proof.
  unfold decimal_value. rewrite fold_left_app. reflexivity.
Qed.

Lemma decimal_value_nonneg ds :
  forallb is_digit ds = true -> (0 <= decimal_value ds)%Z.
Proof.
  induction ds as [|c ds IH] using rev_ind; intros H.
  - cbv. discriminate.
  - rewrite forallb_app in H. apply andb_true_iff in H as [H1 H2].
    cbn in H2. rewrite andb_true_r in H2.
    rewrite decimal_value_snoc.
    pose proof (digit_value_range _ H2). specialize (IH H1). lia.
Qed.

(** The rewriting step of the symbolic runs below: a character known to be
    a digit is not white space, not a sign and not a colon. *)
Ltac digit_rewrite :=
  repeat match goal with
    | H : is_digit ?c = true |- context [is_digit ?c] => rewrite H
    | H : is_digit ?c = true |- context [is_ws ?c] => rewrite (digit_not_ws c H)
    | H : is_digit ?c = true |- context [(?c =? ?d)%N] =>
        rewrite (digit_neq c d H eq_refl)
    end.

Ltac run_symbolic :=
  repeat (cbn -[is_digit is_ws N.eqb Z.mul Z.add Z.leb Z.ltb Z.eqb digit_value];
          digit_rewrite;
          repeat match goal with
            | |- context [is_digit (N.pos ?p)] =>
                let b := eval vm_compute in (is_digit (N.pos p)) in
                change (is_digit (N.pos p)) with b
            | |- context [(N.pos ?p =? N.pos ?q)%N] =>
                let b := eval vm_compute in (N.pos p =? N.pos q)%N in
                change (N.pos p =? N.pos q)%N with b
            end).

(** Splitting a field into its characters. *)
Lemma is_field_2 g :
  is_field 2 2 g = true ->
  exists a b, g = [a; b] /\ is_digit a = true /\ is_digit b = true.
Proof.
  unfold is_field. destruct g as [|a [|b [|c g]]]; cbn; try discriminate.
  rewrite andb_true_r. intros H. apply andb_true_iff in H as [Ha Hb].
  exists a, b. auto.
Qed.

Lemma is_field_1_2 g :
  is_field 1 2 g = true ->
  (exists a, g = [a] /\ is_digit a = true) \/
  (exists a b, g = [a; b] /\ is_digit a = true /\ is_digit b = true).
Proof.
  unfold is_field. destruct g as [|a [|b [|c g]]]; cbn; try discriminate.
  - rewrite andb_true_r. intros H. left. exists a. auto.
  - rewrite andb_true_r. intros H. apply andb_true_iff in H as [Ha Hb].
    right. exists a, b. auto.
Qed.

Lemma is_field_digits lo hi g : is_field lo hi g = true -> forallb is_digit g = true.
Proof.
  unfold is_field. intros H. apply andb_true_iff in H as [_ H]. exact H.
Qed.

Ltac split_fields :=
  repeat match goal with
    | H : is_field 2 2 _ = true |- _ =>
        let a := fresh "a" in let b := fresh "b" in
        apply is_field_2 in H as (a & b & -> & ? & ?)
    | H : is_field 1 2 _ = true |- _ =>
        let a := fresh "a" in let b := fresh "b" in
        apply is_field_1_2 in H as [(a & -> & ?) | (a & b & -> & ? & ?)]
    end.

Lemma trim_hms h m s :
  is_field 1 2 h = true -> is_field 2 2 m = true -> is_field 2 2 s = true ->
  trim (hms_text h m s) = hms_text h m s.
Proof.
  intros Hh Hm Hs. split_fields; unfold hms_text, trim, trimEnd; run_symbolic; reflexivity.
Qed.

Lemma trim_ms m s :
  is_field 1 2 m = true -> is_field 2 2 s = true ->
  trim (ms_text m s) = ms_text m s.
Proof.
  intros Hm Hs. split_fields; unfold ms_text, trim, trimEnd; run_symbolic; reflexivity.
Qed.

Lemma exec_hms h m s :
  is_field 1 2 h = true -> is_field 2 2 m = true -> is_field 2 2 s = true ->
  exec re_hms (hms_text h m s) = Some [h; m; s].
Proof.
  intros Hh Hm Hs. split_fields; unfold hms_text, re_hms; run_symbolic; reflexivity.
Qed.

Lemma exec_hms_on_ms m s :
  is_field 1 2 m = true -> is_field 2 2 s = true ->
  exec re_hms (ms_text m s) = None.
Proof.
  intros Hm Hs. split_fields; unfold ms_text, re_hms; run_symbolic; reflexivity.
Qed.

Lemma exec_ms m s :
  is_field 1 2 m = true -> is_field 2 2 s = true ->
  exec re_ms (ms_text m s) = Some [m; s].
Proof.
  intros Hm Hs. split_fields; unfold ms_text, re_ms; run_symbolic; reflexivity.
Qed.

Lemma parseInt_field lo hi g :
  (0 < lo)%nat -> (hi <= 2)%nat ->
  is_field lo hi g = true -> parseInt g = Some (decimal_value g).
Proof.
  intros Hlo Hhi. unfold is_field.
  destruct g as [|a [|b [|c g]]]; cbn [length forallb]; intros H;
    repeat (apply andb_true_iff in H as [H ?]).
  - apply Nat.leb_le in H. lia.
  - rewrite andb_true_r in *. unfold parseInt. run_symbolic. reflexivity.
  - rewrite andb_true_r in *.
    match goal with H : _ && _ = true |- _ => apply andb_true_iff in H as [? ?] end.
    unfold parseInt. run_symbolic. reflexivity.
  - match goal with H : (_ <=? hi)%nat = true |- _ => apply Nat.leb_le in H; cbn in H; lia end.
Qed.

(** ** What a successful match tells about the text *)

Lemma take_class_inv cls k s g rest :
  take_class cls k s = Some (g, rest) ->
  s = g ++ rest /\ length g = k /\ forallb (in_class cls) g = true.
Proof.
  revert s g rest. induction k as [|k IH]; intros s g rest; cbn.
  - intros [= <- <-]. auto.
  - destruct s as [|c s']; [discriminate|].
    destruct (in_class cls c) eqn:Hc; [|discriminate].
    destruct (take_class cls k s') as [[g' r']|] eqn:Ht; [|discriminate].
    intros [= <- <-]. destruct (IH _ _ _ Ht) as (-> & <- & Hall).
    cbn. rewrite Hc, Hall. auto.
Qed.

Lemma exec_nil_inv s gs : exec [] s = Some gs -> s = [] /\ gs = [].
Proof.
  destruct s; cbn; [intros [= <-]; auto | discriminate].
Qed.

Lemma exec_single_inv cls r s gs :
  exec (Single cls :: r) s = Some gs ->
  exists c s', s = c :: s' /\ in_class cls c = true /\ exec r s' = Some gs.
Proof.
  cbn. destruct s as [|c s']; [discriminate|].
  destruct (in_class cls c) eqn:Hc; [|discriminate].
  intros H. exists c, s'. auto.
Qed.

Lemma exec_group_inv cls lo hi r s gs :
  exec (Group cls lo hi :: r) s = Some gs ->
  exists g rest gs',
    gs = g :: gs' /\ s = g ++ rest /\
    (lo <= length g <= lo + (hi - lo))%nat /\
    forallb (in_class cls) g = true /\ exec r rest = Some gs'.
Proof.
  cbn. generalize (hi - lo)%nat as extra.
  induction extra as [|e IH].
  - destruct (take_class cls (lo + 0) s) as [[g rest]|] eqn:Ht; [|discriminate].
    destruct (exec r rest) as [gs'|] eqn:He; [|discriminate].
    intros [= <-]. apply take_class_inv in Ht as (-> & Hl & Hall).
    exists g, rest, gs'. repeat split; auto; lia.
  - destruct (take_class cls (lo + S e) s) as [[g rest]|] eqn:Ht.
    + destruct (exec r rest) as [gs'|] eqn:He.
      * intros [= <-]. apply take_class_inv in Ht as (-> & Hl & Hall).
        exists g, rest, gs'. repeat split; auto; lia.
      * intros H. destruct (IH H) as (g' & rest' & gs' & ? & ? & ? & ? & ?).
        exists g', rest', gs'. repeat split; auto; lia.
    + intros H. destruct (IH H) as (g' & rest' & gs' & ? & ? & ? & ? & ?).
      exists g', rest', gs'. repeat split; auto; lia.
Qed.

Lemma is_field_intro lo hi g :
  (lo <= length g <= hi)%nat -> forallb (in_class Digit) g = true ->
  is_field lo hi g = true.
Proof.
  intros [H1 H2] H. unfold is_field.
  apply Nat.leb_le in H1. apply Nat.leb_le in H2. rewrite H1, H2. exact H.
Qed.

(** Every text the HH:MM:SS pattern accepts is three fields joined by
    colons, and the captures are the fields. *)
Lemma exec_hms_inv t gs :
  exec re_hms t = Some gs ->
  exists h m s, gs = [h; m; s] /\ t = hms_text h m s /\
    is_field 1 2 h = true /\ is_field 2 2 m = true /\ is_field 2 2 s = true.
Proof.
  unfold re_hms. intros H.
  apply exec_group_inv in H as (h & r1 & gs1 & -> & -> & Hlh & Hh & H).
  apply exec_single_inv in H as (c1 & r2 & -> & Hc1 & H).
  apply exec_group_inv in H as (m & r3 & gs2 & -> & -> & Hlm & Hm & H).
  apply exec_single_inv in H as (c2 & r4 & -> & Hc2 & H).
  apply exec_group_inv in H as (s & r5 & gs3 & -> & -> & Hls & Hs & H).
  apply exec_nil_inv in H as [-> ->].
  cbn in Hc1, Hc2. apply N.eqb_eq in Hc1, Hc2. subst c1 c2.
  exists h, m, s. rewrite app_nil_r.
  repeat split; try (apply is_field_intro; [cbn in *; lia | assumption]).
Qed.

(** Likewise for the MM:SS pattern. *)
Lemma exec_ms_inv t gs :
  exec re_ms t = Some gs ->
  exists m s, gs = [m; s] /\ t = ms_text m s /\
    is_field 1 2 m = true /\ is_field 2 2 s = true.
Proof.
  unfold re_ms. intros H.
  apply exec_group_inv in H as (m & r1 & gs1 & -> & -> & Hlm & Hm & H).
  apply exec_single_inv in H as (c1 & r2 & -> & Hc1 & H).
  apply exec_group_inv in H as (s & r3 & gs2 & -> & -> & Hls & Hs & H).
  apply exec_nil_inv in H as [-> ->].
  cbn in Hc1. apply N.eqb_eq in Hc1. subst c1.
  exists m, s. rewrite app_nil_r.
  repeat split; try (apply is_field_intro; [cbn in *; lia | assumption]).
Qed.

(** ** The two parsers on a well-shaped text *)

Section Codec.
Local Open Scope Z_scope.

Lemma field_nonneg lo hi g : is_field lo hi g = true -> (decimal_value g <? 0) = false.
Proof.
  intros H. apply Z.ltb_ge, decimal_value_nonneg, (is_field_digits _ _ _ H).
Qed.

Lemma parseTimeInput_hms input h m s :
  trim input = hms_text h m s ->
  is_field 1 2 h = true -> is_field 2 2 m = true -> is_field 2 2 s = true ->
  parseTimeInput input
  = classify_hms (decimal_value h) (decimal_value m) (decimal_value s).
Proof.
  intros Ht Hh Hm Hs. unfold parseTimeInput, classify_hms.
  rewrite Ht, (exec_hms _ _ _ Hh Hm Hs).
  rewrite (parseInt_field 1 2 h), (parseInt_field 2 2 m), (parseInt_field 2 2 s)
    by (assumption || lia).
  rewrite (field_nonneg _ _ _ Hh), (field_nonneg _ _ _ Hm), (field_nonneg _ _ _ Hs).
  reflexivity.
Qed.

Lemma parseTimeInput_ms input m s :
  trim input = ms_text m s ->
  is_field 1 2 m = true -> is_field 2 2 s = true ->
  parseTimeInput input = classify_ms (decimal_value m) (decimal_value s).
Proof.
  intros Ht Hm Hs. unfold parseTimeInput, classify_ms.
  rewrite Ht, (exec_hms_on_ms _ _ Hm Hs), (exec_ms _ _ Hm Hs).
  rewrite (parseInt_field 1 2 m), (parseInt_field 2 2 s) by (assumption || lia).
  rewrite (field_nonneg _ _ _ Hm), (field_nonneg _ _ _ Hs).
  reflexivity.
Qed.

Lemma hms_text_nonempty h m s : hms_text h m s <> [].
Proof. unfold hms_text. destruct h; discriminate. Qed.

Lemma parseHHMMSS_hms input h m s :
  trim input = hms_text h m s ->
  is_field 1 2 h = true -> is_field 2 2 m = true -> is_field 2 2 s = true ->
  SettingsWindow.parseHHMMSS input
  = classify_hms (decimal_value h) (decimal_value m) (decimal_value s).
Proof.
  intros Ht Hh Hm Hs. unfold SettingsWindow.parseHHMMSS, classify_hms.
  rewrite Ht. destruct (hms_text h m s) eqn:E; [now apply hms_text_nonempty in E|].
  rewrite <- E. change SettingsWindow.re_hms with re_hms.
  rewrite (exec_hms _ _ _ Hh Hm Hs).
  rewrite (parseInt_field 1 2 h), (parseInt_field 2 2 m), (parseInt_field 2 2 s)
    by (assumption || lia).
  rewrite (field_nonneg _ _ _ Hh), (field_nonneg _ _ _ Hm), (field_nonneg _ _ _ Hs).
  rewrite !orb_false_r. reflexivity.
Qed.

(** The preset editor has no two-field form. *)
Lemma parseHHMMSS_ms input m s :
  trim input = ms_text m s ->
  is_field 1 2 m = true -> is_field 2 2 s = true ->
  SettingsWindow.parseHHMMSS input = Null InvalidFormat.
Proof.
  intros Ht Hm Hs. unfold SettingsWindow.parseHHMMSS.
  rewrite Ht. destruct (ms_text m s) eqn:E; [reflexivity|].
  rewrite <- E. change SettingsWindow.re_hms with re_hms.
  rewrite (exec_hms_on_ms _ _ Hm Hs). reflexivity.
Qed.

(** Every input falls in one of three classes: its trimmed text is an
    HH:MM:SS text, an MM:SS text, or the answer is [InvalidFormat]. *)
Lemma parseTimeInput_cases input :
  (exists h m s, trim input = hms_text h m s /\
     is_field 1 2 h = true /\ is_field 2 2 m = true /\ is_field 2 2 s = true) \/
  (exists m s, trim input = ms_text m s /\
     is_field 1 2 m = true /\ is_field 2 2 s = true) \/
  parseTimeInput input = Null InvalidFormat.
Proof.
  destruct (exec re_hms (trim input)) as [gs|] eqn:E1.
  { apply exec_hms_inv in E1 as (h & m & s & _ & Ht & Hh & Hm & Hs).
    left. exists h, m, s. auto. }
  destruct (exec re_ms (trim input)) as [gs|] eqn:E2.
  { apply exec_ms_inv in E2 as (m & s & _ & Ht & Hm & Hs).
    right; left. exists m, s. auto. }
  right; right. unfold parseTimeInput. rewrite E1, E2. reflexivity.
Qed.

Lemma classify_hms_not_zero a b c :
  classify_hms a b c <> Seconds 0 /\ classify_hms a b c <> NotANumber.
Proof.
  unfold classify_hms.
  destruct (_ || _); [split; discriminate|].
  destruct (Z.eqb_spec (a * 3600 + b * 60 + c) 0); split; try discriminate.
  intros [= H]. contradiction.
Qed.

Lemma classify_ms_not_zero b c :
  classify_ms b c <> Seconds 0 /\ classify_ms b c <> NotANumber.
Proof.
  unfold classify_ms.
  destruct (60 <=? c); [split; discriminate|].
  destruct (Z.eqb_spec (b * 60 + c) 0); split; try discriminate.
  intros [= H]. contradiction.
Qed.

(** No input makes [parseTimeInput] return zero, and the [NaN] branch is
    never taken. *)
Lemma parseTimeInput_never_zero input :
  parseTimeInput input <> Seconds 0 /\ parseTimeInput input <> NotANumber.
Proof.
  destruct (parseTimeInput_cases input)
    as [(h & m & s & Ht & Hh & Hm & Hs) | [(m & s & Ht & Hm & Hs) | H]].
  - rewrite (parseTimeInput_hms _ _ _ _ Ht Hh Hm Hs). apply classify_hms_not_zero.
  - rewrite (parseTimeInput_ms _ _ _ Ht Hm Hs). apply classify_ms_not_zero.
  - rewrite H. split; discriminate.
Qed.

End Codec.

(** ** [trim] *)

Lemma trimStart_keeps c r : is_ws c = false -> trimStart (c :: r) = c :: r.
Proof. intros H. cbn. rewrite H. reflexivity. Qed.

Lemma trimStart_head s :
  trimStart s = [] \/ exists c r, trimStart s = c :: r /\ is_ws c = false.
Proof.
  induction s as [|c s IH]; cbn; [left; reflexivity|].
  destruct (is_ws c) eqn:E; [exact IH|]. right. exists c, s. auto.
Qed.

Lemma trimStart_idem s : trimStart (trimStart s) = trimStart s.
Proof.
  destruct (trimStart_head s) as [-> | (c & r & -> & H)]; [reflexivity|].
  apply trimStart_keeps, H.
Qed.

Lemma trimStart_snoc l c : is_ws c = false -> trimStart (l ++ [c]) = trimStart l ++ [c].
Proof.
  intros H. induction l as [|x l IH]; cbn.
  - rewrite H. reflexivity.
  - destruct (is_ws x); [exact IH | reflexivity].
Qed.

Lemma trimEnd_keeps c r :
  is_ws c = false -> trimEnd (c :: r) = c :: rev (trimStart (rev r)).
Proof.
  intros H. unfold trimEnd. cbn [rev].
  rewrite (trimStart_snoc _ _ H), rev_app_distr. reflexivity.
Qed.

(** Trimming twice is trimming once: [parseHHMMSS] may be handed a text
    that [savePresets] has trimmed already. *)
Lemma trim_idem s : trim (trim s) = trim s.
Proof.
  unfold trim. destruct (trimStart_head s) as [-> | (c & r & -> & H)]; [reflexivity|].
  rewrite (trimEnd_keeps _ _ H), (trimStart_keeps _ _ H), (trimEnd_keeps _ _ H).
  rewrite rev_involutive, trimStart_idem. reflexivity.
Qed.

Lemma trim_nil_parse s : trim s = [] -> SettingsWindow.parseHHMMSS s = Null InvalidFormat.
Proof. intros H. unfold SettingsWindow.parseHHMMSS. rewrite H. reflexivity. Qed.

Lemma parseHHMMSS_trim s :
  SettingsWindow.parseHHMMSS (trim s) = SettingsWindow.parseHHMMSS s.
Proof. unfold SettingsWindow.parseHHMMSS. rewrite trim_idem. reflexivity. Qed.

(** ** The parsers on the texts of the two forms *)

Section Shapes.
Local Open Scope Z_scope.

Lemma well_shaped_hms h m s :
  well_shaped (HMS h m s) = true ->
  is_field 1 2 h = true /\ is_field 2 2 m = true /\ is_field 2 2 s = true.
Proof.
  cbn. intros H. apply andb_true_iff in H as [H Hs].
  apply andb_true_iff in H as [Hh Hm]. auto.
Qed.

Lemma well_shaped_ms m s :
  well_shaped (MS m s) = true -> is_field 1 2 m = true /\ is_field 2 2 s = true.
Proof. cbn. intros H. apply andb_true_iff in H. exact H. Qed.

Lemma parseTimeInput_shaped input t :
  well_shaped t = true -> trim input = text_of t ->
  parseTimeInput input = classify t.
Proof.
  destruct t as [h m s | m s]; intros Hw Ht.
  - apply well_shaped_hms in Hw as (Hh & Hm & Hs).
    apply parseTimeInput_hms; assumption.
  - apply well_shaped_ms in Hw as (Hm & Hs).
    apply parseTimeInput_ms; assumption.
Qed.

Lemma fields_nonneg t :
  well_shaped t = true ->
  0 <= hours_field t /\ 0 <= minutes_field t /\ 0 <= seconds_field t.
Proof.
  destruct t as [h m s | m s]; intros Hw.
  - apply well_shaped_hms in Hw as (Hh & Hm & Hs). cbn.
    repeat split; apply decimal_value_nonneg; eapply is_field_digits; eassumption.
  - apply well_shaped_ms in Hw as (Hm & Hs). cbn.
    repeat split; try lia; apply decimal_value_nonneg; eapply is_field_digits; eassumption.
Qed.

(** Every input is the text of one of the two forms once trimmed, or is
    answered [InvalidFormat]. *)
Lemma parseTimeInput_complete input :
  (exists t, well_shaped t = true /\ trim input = text_of t) \/
  parseTimeInput input = Null InvalidFormat.
Proof.
  destruct (parseTimeInput_cases input)
    as [(h & m & s & Ht & Hh & Hm & Hs) | [(m & s & Ht & Hm & Hs) | H]].
  - left. exists (HMS h m s). cbn. rewrite Hh, Hm, Hs. auto.
  - left. exists (MS m s). cbn. rewrite Hm, Hs. auto.
  - right. exact H.
Qed.

End Shapes.

(** ** Formatting *)

Section Format.
Local Open Scope Z_scope.

Lemma pad2_below_100 : forallb pad2_ok (map Z.of_nat (seq 0 100)) = true.
Proof. vm_compute. reflexivity. Qed.

(** Below one hundred, [pad2] writes a two-digit field that reads back as
    the number. *)
Lemma pad2_field n :
  0 <= n < 100 -> is_field 2 2 (pad2 n) = true /\ decimal_value (pad2 n) = n.
Proof.
  intros Hn. pose proof pad2_below_100 as H.
  rewrite forallb_forall in H.
  specialize (H n). unfold pad2_ok in H.
  rewrite andb_true_iff, Z.eqb_eq in H. apply H.
  rewrite in_map_iff. exists (Z.to_nat n). split; [lia|].
  apply in_seq. lia.
Qed.

Lemma field_2_is_1_2 g : is_field 2 2 g = true -> is_field 1 2 g = true.
Proof.
  unfold is_field. intros H. apply andb_true_iff in H as [H Hd].
  apply andb_true_iff in H as [H1 H2]. rewrite H2, Hd.
  apply Nat.leb_le in H1. replace (1 <=? length g)%nat with true; [reflexivity|].
  symmetry. apply Nat.leb_le. lia.
Qed.

(** Hours, minutes and seconds of a non-negative time. *)
Lemma split_time t :
  0 <= t ->
  0 <= hoursOf t /\ 0 <= minutesOf t < 60 /\ 0 <= secondsOf t < 60 /\
  t = hoursOf t * 3600 + minutesOf t * 60 + secondsOf t.
Proof.
  intros Ht. unfold hoursOf, minutesOf, secondsOf.
  rewrite !Z.rem_mod_nonneg by lia.
  pose proof (Z.div_mod t 3600 ltac:(lia)).
  pose proof (Z.mod_pos_bound t 3600 ltac:(lia)).
  pose proof (Z.div_mod (t mod 3600) 60 ltac:(lia)).
  pose proof (Z.mod_pos_bound (t mod 3600) 60 ltac:(lia)).
  pose proof (Z.div_mod t 60 ltac:(lia)).
  pose proof (Z.mod_pos_bound t 60 ltac:(lia)).
  lia.
Qed.

Lemma hoursOf_pos t : 0 <= t -> (0 <? hoursOf t) = (3600 <=? t).
Proof.
  intros Ht. unfold hoursOf.
  pose proof (Z.div_mod t 3600 ltac:(lia)).
  pose proof (Z.mod_pos_bound t 3600 ltac:(lia)).
  destruct (Z.ltb_spec 0 (t / 3600)), (Z.leb_spec 3600 t); lia.
Qed.

Lemma formatTime_long t :
  3600 <= t < 100 * 3600 ->
  let tt := HMS (pad2 (hoursOf t)) (pad2 (minutesOf t)) (pad2 (secondsOf t)) in
  formatTime t = text_of tt /\ well_shaped tt = true /\
  hours_field tt = hoursOf t /\ minutes_field tt = minutesOf t /\
  seconds_field tt = secondsOf t.
Proof.
  intros Ht tt. destruct (split_time t ltac:(lia)) as (Hh & Hm & Hs & Hsum).
  assert (hoursOf t < 100) by lia.
  destruct (pad2_field (hoursOf t) ltac:(lia)) as [Fh Vh].
  destruct (pad2_field (minutesOf t) ltac:(lia)) as [Fm Vm].
  destruct (pad2_field (secondsOf t) ltac:(lia)) as [Fs Vs].
  unfold formatTime. rewrite (hoursOf_pos t) by lia.
  replace (3600 <=? t) with true by (symmetry; apply Z.leb_le; lia).
  subst tt. cbn [text_of well_shaped hours_field minutes_field seconds_field].
  rewrite (field_2_is_1_2 _ Fh), Fm, Fs. auto.
Qed.

Lemma formatTime_short t :
  0 <= t < 3600 ->
  let tt := MS (pad2 (minutesOf t)) (pad2 (secondsOf t)) in
  formatTime t = text_of tt /\ well_shaped tt = true /\
  hoursOf t = 0 /\ minutes_field tt = minutesOf t /\
  seconds_field tt = secondsOf t.
Proof.
  intros Ht tt. destruct (split_time t ltac:(lia)) as (Hh & Hm & Hs & Hsum).
  destruct (pad2_field (minutesOf t) ltac:(lia)) as [Fm Vm].
  destruct (pad2_field (secondsOf t) ltac:(lia)) as [Fs Vs].
  unfold formatTime. rewrite (hoursOf_pos t) by lia.
  replace (3600 <=? t) with false by (symmetry; apply Z.leb_gt; lia).
  subst tt. cbn [text_of well_shaped hours_field minutes_field seconds_field].
  rewrite (field_2_is_1_2 _ Fm), Fs. repeat split; auto. lia.
Qed.

Lemma trim_shaped t : well_shaped t = true -> trim (text_of t) = text_of t.
Proof.
  destruct t as [h m s | m s]; intros Hw.
  - apply well_shaped_hms in Hw as (Hh & Hm & Hs). apply trim_hms; assumption.
  - apply well_shaped_ms in Hw as (Hm & Hs). apply trim_ms; assumption.
Qed.

(** C1. For every integer s with 0 < s < 100*3600, parsing the text that
    [updateDisplay] writes for s gives s back; the text is MM:SS below one
    hour and HH:MM:SS from one hour on, every field on two digits. At 0
    there is no round trip: the text "00:00" is turned down as a zero
    duration. *)
Theorem format_parse_roundtrip (s : Z) :
  0 < s < 100 * 3600 ->
  parseTimeInput (formatTime s) = Seconds s /\
  parseTimeInput (formatTime 0) = Null ZeroDuration /\
  (s < 3600 -> formatTime s = ms_text (pad2 (minutesOf s)) (pad2 (secondsOf s))) /\
  (3600 <= s ->
   formatTime s = hms_text (pad2 (hoursOf s)) (pad2 (minutesOf s)) (pad2 (secondsOf s))) /\
  length (pad2 (hoursOf s)) = 2%nat /\
  length (pad2 (minutesOf s)) = 2%nat /\ length (pad2 (secondsOf s)) = 2%nat.
Proof.
  intros Hs. destruct (split_time s ltac:(lia)) as (Hh & Hm & Hsec & Hsum).
  assert (Hlen : forall n, 0 <= n < 100 -> length (pad2 n) = 2%nat).
  { intros n Hn. destruct (pad2_field n Hn) as [F _]. unfold is_field in F.
    apply andb_true_iff in F as [F _]. apply andb_true_iff in F as [F1 F2].
    apply Nat.leb_le in F1, F2. lia. }
  assert (Hh100 : hoursOf s < 100) by lia.
  split; [|split; [reflexivity|]]; [|repeat split; try (apply Hlen; lia)].
  - destruct (Z.le_gt_cases 3600 s) as [Hlong | Hshort].
    + destruct (formatTime_long s ltac:(lia)) as (Ht & Hw & Vh & Vm & Vs).
      rewrite (parseTimeInput_shaped _ _ Hw) by (rewrite Ht; apply trim_shaped, Hw).
      cbn [hours_field minutes_field seconds_field] in Vh, Vm, Vs.
      cbn [classify]. rewrite Vh, Vm, Vs. unfold classify_hms.
      replace (60 <=? minutesOf s) with false by (symmetry; apply Z.leb_gt; lia).
      replace (60 <=? secondsOf s) with false by (symmetry; apply Z.leb_gt; lia).
      rewrite <- Hsum. cbn [orb].
      replace (s =? 0) with false by (symmetry; apply Z.eqb_neq; lia).
      reflexivity.
    + destruct (formatTime_short s ltac:(lia)) as (Ht & Hw & Vh & Vm & Vs).
      rewrite (parseTimeInput_shaped _ _ Hw) by (rewrite Ht; apply trim_shaped, Hw).
      cbn [minutes_field seconds_field] in Vm, Vs.
      cbn [classify]. rewrite Vm, Vs. unfold classify_ms.
      replace (60 <=? secondsOf s) with false by (symmetry; apply Z.leb_gt; lia).
      replace (minutesOf s * 60 + secondsOf s) with s by lia.
      replace (s =? 0) with false by (symmetry; apply Z.eqb_neq; lia).
      reflexivity.
  - intros Hshort. apply (formatTime_short s). lia.
  - intros Hlong. apply (formatTime_long s). lia.
Qed.

Lemma format_parse_roundtrip_witness :
  0 < 5400 < 100 * 3600 /\
  parseTimeInput (formatTime 5400) = Seconds 5400 /\
  formatTime 5400 = js "01:30:00" /\ formatTime 180 = js "03:00".
Proof.
  split; [lia|].
  split; [apply (format_parse_roundtrip 5400); lia|].
  split; reflexivity.
Defined.

(** The display and the parser at zero: formatting works, parsing the
    result is turned down. *)
Lemma format_zero :
  formatTime 0 = js "00:00" /\ parseTimeInput (formatTime 0) = Null ZeroDuration.
Proof. split; reflexivity. Qed.

(** The examples of the parser. *)
Lemma parse_examples :
  parseTimeInput (js "25:00") = Seconds 1500 /\
  parseTimeInput (js "01:30:00") = Seconds 5400 /\
  parseTimeInput (js "00:00") = Null ZeroDuration /\
  parseTimeInput (js "abc") = Null InvalidFormat /\
  parseTimeInput (js "01:60:00") = Null OutOfRange.
Proof. repeat split; reflexivity. Qed.

End Format.

(** ** Range and zero checks *)

Section Checks.
Local Open Scope Z_scope.

Lemma leb_true a b : a <= b -> (a <=? b) = true.
Proof. apply Z.leb_le. Qed.

Lemma leb_false a b : b < a -> (a <=? b) = false.
Proof. apply Z.leb_gt. Qed.

(** A committed edit whose text the parser turns down changes neither
    time and leaves the edit. *)
Lemma exitEditMode_rejected a input rest e :
  timeInputs a = input :: rest -> parseTimeInput input = Null e ->
  currentTime (state (exitEditMode true a)) = currentTime (state a) /\
  totalTime (state (exitEditMode true a)) = totalTime (state a) /\
  isEditMode (state (exitEditMode true a)) = false /\
  timeInputs (exitEditMode true a) = rest.
Proof.
  intros Hin Hp. unfold exitEditMode. rewrite Hin. cbn [head]. rewrite Hp.
  cbn. rewrite Hin. auto.
Qed.

(** C3, as the code has it. On a text of the form H{1,2}:MM:SS, minutes
    or seconds of 60 or more are answered [OutOfRange], by [parseTimeInput]
    and by [parseHHMMSS] alike. On a text of the form M{1,2}:SS,
    [parseTimeInput] answers [OutOfRange] when the seconds are 60 or more;
    the minutes of that form are not range-checked, so with seconds below
    60 the answer is never [OutOfRange] and a non-zero total is returned,
    whatever the minutes. *)
Theorem out_of_range_rejected (input : jsstring) (t : TimeText) :
  well_shaped t = true -> trim input = text_of t ->
  (60 <= seconds_field t \/ (is_hms t = true /\ 60 <= minutes_field t) ->
   parseTimeInput input = Null OutOfRange) /\
  (is_hms t = true -> 60 <= seconds_field t \/ 60 <= minutes_field t ->
   SettingsWindow.parseHHMMSS input = Null OutOfRange) /\
  (is_hms t = false -> seconds_field t < 60 ->
   parseTimeInput input <> Null OutOfRange /\
   (total_of t <> 0 -> parseTimeInput input = Seconds (total_of t))).
Proof.
  intros Hw Ht. rewrite (parseTimeInput_shaped _ _ Hw Ht).
  destruct t as [h m s | m s]; cbn [is_hms seconds_field minutes_field classify].
  - apply well_shaped_hms in Hw as (Hh & Hm & Hs).
    rewrite (parseHHMMSS_hms _ _ _ _ Ht Hh Hm Hs). unfold classify_hms.
    repeat split; try discriminate.
    + intros [H | [_ H]].
      * rewrite (leb_true _ _ H), orb_true_r. reflexivity.
      * rewrite (leb_true _ _ H). reflexivity.
    + intros _ [H | H].
      * rewrite (leb_true _ _ H), orb_true_r. reflexivity.
      * rewrite (leb_true _ _ H). reflexivity.
  - unfold classify_ms, total_of. cbn [hours_field minutes_field seconds_field].
    split; [|split; [discriminate|]].
    + intros [H | [H _]]; [|discriminate]. rewrite (leb_true _ _ H). reflexivity.
    + intros _ Hlt. rewrite (leb_false _ _ Hlt). split.
      * destruct (_ =? 0); discriminate.
      * intros Hne.
        replace (decimal_value m * 60 + decimal_value s =? 0) with false
          by (symmetry; apply Z.eqb_neq; lia).
        f_equal.
Qed.

Lemma out_of_range_rejected_witness :
  parseTimeInput (js " 01:60:00 ") = Null OutOfRange /\
  SettingsWindow.parseHHMMSS (js " 01:60:00 ") = Null OutOfRange /\
  parseTimeInput (js "5:75") = Null OutOfRange /\
  parseTimeInput (js "90:30") = Seconds 5430.
Proof.
  pose proof (out_of_range_rejected (js " 01:60:00 ") (HMS (js "01") (js "60") (js "00"))
                eq_refl eq_refl) as (H1 & H2 & _).
  pose proof (out_of_range_rejected (js "5:75") (MS (js "5") (js "75"))
                eq_refl eq_refl) as (H3 & _ & _).
  pose proof (out_of_range_rejected (js "90:30") (MS (js "90") (js "30"))
                eq_refl eq_refl) as (_ & _ & H4).
  split; [apply H1; right; split; [reflexivity | vm_compute; discriminate]|].
  split; [apply H2; [reflexivity | right; vm_compute; discriminate]|].
  split; [apply H3; left; vm_compute; discriminate|].
  apply H4; [reflexivity | reflexivity | vm_compute; discriminate].
Defined.

(** C3 as worded fails on the two-field form: "60:00" is an M{1,2}:SS text
    whose minutes field is 60, and [parseTimeInput] returns 3600 for it. *)
Lemma sixty_minutes_accepted :
  well_shaped (MS (js "60") (js "00")) = true /\
  trim (js "60:00") = text_of (MS (js "60") (js "00")) /\
  60 <= minutes_field (MS (js "60") (js "00")) /\
  parseTimeInput (js "60:00") = Seconds 3600 /\
  parseTimeInput (js "60:00") <> Null OutOfRange.
Proof.
  repeat split; try reflexivity; vm_compute; discriminate.
Qed.

(** C7. An input whose fields add up to a total of exactly 0 seconds is
    answered [ZeroDuration] (by [parseHHMMSS] too on the three-field
    form); no input at all makes the parser return 0; and committing an
    edit with such an input leaves [currentTime] and [totalTime] as they
    were. *)
Theorem zero_duration_rejected (input : jsstring) (t : TimeText) :
  well_shaped t = true -> trim input = text_of t -> total_of t = 0 ->
  parseTimeInput input = Null ZeroDuration /\
  (is_hms t = true -> SettingsWindow.parseHHMMSS input = Null ZeroDuration) /\
  (forall other, parseTimeInput other <> Seconds 0) /\
  (forall a rest, timeInputs a = input :: rest ->
     currentTime (state (exitEditMode true a)) = currentTime (state a) /\
     totalTime (state (exitEditMode true a)) = totalTime (state a)).
Proof.
  intros Hw Ht Hz.
  destruct (fields_nonneg t Hw) as (Nh & Nm & Ns).
  unfold total_of in Hz.
  assert (Hp : parseTimeInput input = Null ZeroDuration).
  { rewrite (parseTimeInput_shaped _ _ Hw Ht).
    destruct t as [h m s | m s];
      cbn [classify hours_field minutes_field seconds_field] in *.
    - unfold classify_hms.
      rewrite (leb_false 60 (decimal_value m)), (leb_false 60 (decimal_value s)) by lia.
      cbn [orb]. rewrite Hz. reflexivity.
    - unfold classify_ms. rewrite (leb_false 60 (decimal_value s)) by lia.
      replace (decimal_value m * 60 + decimal_value s) with 0 by lia. reflexivity. }
  split; [exact Hp|]. split; [|split].
  - destruct t as [h m s | m s]; [|discriminate]. intros _.
    apply well_shaped_hms in Hw as (Hh & Hm & Hs).
    cbn [hours_field minutes_field seconds_field] in *.
    rewrite (parseHHMMSS_hms _ _ _ _ Ht Hh Hm Hs). unfold classify_hms.
    rewrite (leb_false 60 (decimal_value m)), (leb_false 60 (decimal_value s)) by lia.
    cbn [orb]. rewrite Hz. reflexivity.
  - intros other. apply parseTimeInput_never_zero.
  - intros a rest Hin.
    destruct (exitEditMode_rejected a input rest _ Hin Hp) as (Hc & Htot & _).
    auto.
Qed.

Lemma zero_duration_rejected_witness :
  parseTimeInput (js "00:00") = Null ZeroDuration /\
  parseTimeInput (js "00:00:00") = Null ZeroDuration /\
  SettingsWindow.parseHHMMSS (js "00:00:00") = Null ZeroDuration /\
  currentTime (state (exitEditMode true (with_timeInputs [js "00:00"] initialApp))) = 180.
Proof.
  pose proof (zero_duration_rejected (js "00:00") (MS (js "00") (js "00"))
                eq_refl eq_refl eq_refl) as (H1 & _ & _ & H4).
  pose proof (zero_duration_rejected (js "00:00:00") (HMS (js "00") (js "00") (js "00"))
                eq_refl eq_refl eq_refl) as (H2 & H3 & _ & _).
  split; [exact H1|]. split; [exact H2|]. split; [exact (H3 eq_refl)|].
  destruct (H4 (with_timeInputs [js "00:00"] initialApp) [] eq_refl) as [Hc _].
  rewrite Hc. reflexivity.
Defined.

End Checks.

(** ** The engine *)

Section Engine.
Local Open Scope Z_scope.

(** Opens an application state into its fields, and the agreement between
    flag and interval table into its two cases. *)
Ltac open_app a :=
  let m := fresh "m" in let r := fresh "r" in let c := fresh "c" in
  let t := fresh "t" in let e := fresh "e" in let iid := fresh "iid" in
  let live := fresh "live" in let nh := fresh "nh" in
  destruct a as [[m r c t e] iid live nh ? ? ? ? ? ?];
  unfold coherent in * |-; cbn [intervalId state isRunning liveIntervals] in * |-;
  destruct iid as [?h|];
  repeat match goal with
    | H : _ /\ _ |- _ => destruct H
    | H : r = _ |- _ => subst r
    | H : live = _ |- _ => subst live
    end.

Ltac eval_app :=
  cbn -[Z.add Z.sub Z.max Z.eqb Z.leb Z.ltb formatTime formatEditSeed parseTimeInput];
  rewrite ?Nat.eqb_refl;
  cbn -[Z.add Z.sub Z.max Z.eqb Z.leb Z.ltb formatTime formatEditSeed parseTimeInput].

Lemma coherent_initial : coherent initialApp.
Proof. split; reflexivity. Qed.

Lemma pauseTimer_coherent a :
  coherent a ->
  pauseTimer a
  = mkApp (set_isRunning false (state a)) None [] (nextHandle a) (timeInputs a)
          (displayText a) (timerComplete a) (pendingTimeouts a) (soundsPlayed a)
          (windowShows a).
Proof. intros H. open_app a; eval_app; reflexivity. Qed.

Lemma startTimer_paused a :
  coherent a -> isRunning (state a) = false ->
  startTimer a
  = mkApp (set_isRunning true (state a)) (Some (nextHandle a)) [nextHandle a]
          (S (nextHandle a)) (timeInputs a) (displayText a) (timerComplete a)
          (pendingTimeouts a) (soundsPlayed a) (windowShows a).
Proof. intros H Hr. open_app a; try discriminate; eval_app; reflexivity. Qed.

(** With the table in agreement, a second that passes runs the callback
    once if the timer is running and does nothing otherwise. *)
Lemma tick_coherent a :
  coherent a ->
  tick a = if isRunning (state a) then intervalCallback a else a.
Proof.
  intros H. unfold tick, fire. open_app a; cbn [fold_left existsb liveIntervals].
  - rewrite Nat.eqb_refl. reflexivity.
  - reflexivity.
Qed.

Lemma coherent_pauseTimer a : coherent a -> coherent (pauseTimer a).
Proof. intros H. rewrite (pauseTimer_coherent a H). split; reflexivity. Qed.

Lemma coherent_startTimer a : coherent a -> coherent (startTimer a).
Proof.
  intros H. destruct (isRunning (state a)) eqn:Hr.
  - unfold startTimer. rewrite Hr. exact H.
  - rewrite (startTimer_paused a H Hr). split; reflexivity.
Qed.

Lemma coherent_intervalCallback a : coherent a -> coherent (intervalCallback a).
Proof.
  intros H. open_app a; destruct m; eval_app;
    try destruct (Z.max 0 (c - 1) =? 0); eval_app; split; reflexivity.
Qed.

Lemma coherent_tick a : coherent a -> coherent (tick a).
Proof.
  intros H. rewrite (tick_coherent a H).
  destruct (isRunning (state a)); [apply coherent_intervalCallback|]; exact H.
Qed.

Lemma coherent_exitEditMode save a : coherent a -> coherent (exitEditMode save a).
Proof.
  intros H. unfold exitEditMode.
  destruct (head (timeInputs a)) as [v|]; [destruct save; [destruct (parseTimeInput v)|]|];
    open_app a; split; reflexivity.
Qed.

Lemma coherent_step e a : coherent a -> coherent (step e a).
Proof.
  intros H. destruct e; cbn [step].
  - unfold toggleTimer. destruct (isRunning (state a));
      [apply coherent_pauseTimer | apply coherent_startTimer]; exact H.
  - unfold resetTimer, stopTimer. rewrite (pauseTimer_coherent a H). split; reflexivity.
  - apply coherent_tick, H.
  - unfold toggleMode, stopTimer.
    set (a1 := if isEditMode (state a) then exitEditMode false a else a).
    assert (H1 : coherent a1)
      by (subst a1; destruct (isEditMode (state a)); [apply coherent_exitEditMode|]; exact H).
    rewrite (pauseTimer_coherent a1 H1). split; reflexivity.
  - unfold setTime, stopTimer.
    set (a1 := if isEditMode (state a) then exitEditMode false a else a).
    assert (H1 : coherent a1)
      by (subst a1; destruct (isEditMode (state a)); [apply coherent_exitEditMode|]; exact H).
    rewrite (pauseTimer_coherent a1 H1). split; reflexivity.
  - unfold enterEditMode.
    destruct (isRunning (state a)) eqn:Hr.
    + rewrite (pauseTimer_coherent a H). split; reflexivity.
    + open_app a; try discriminate; split; reflexivity.
  - apply coherent_exitEditMode, H.
  - open_app a; split; reflexivity.
  - unfold timeoutExpires. destruct (pendingTimeouts a) eqn:E; [exact H|].
    open_app a; split; reflexivity.
  - open_app a; split; reflexivity.
Qed.

Lemma coherent_run evs a : coherent a -> coherent (run evs a).
Proof.
  revert a. induction evs as [|e evs IH]; intros a H; [exact H|].
  apply IH, coherent_step, H.
Qed.

Lemma coherent_ticks n a : coherent a -> coherent (ticks n a).
Proof.
  revert a. induction n as [|n IH]; intros a H; [exact H|].
  apply IH, coherent_tick, H.
Qed.

(** Every state the window reaches from its initial one is coherent. *)
Lemma reachable_coherent evs : coherent (run evs initialApp).
Proof. apply coherent_run, coherent_initial. Qed.

(** A number the parser returns is positive. *)
Lemma parseTimeInput_positive input n : parseTimeInput input = Seconds n -> 0 < n.
Proof.
  destruct (parseTimeInput_complete input) as [(t & Hw & Ht) | H]; [|congruence].
  rewrite (parseTimeInput_shaped _ _ Hw Ht).
  destruct (fields_nonneg t Hw) as (Nh & Nm & Ns).
  destruct t as [h m s | m s]; cbn [classify hours_field minutes_field seconds_field] in *.
  - unfold classify_hms. destruct (_ || _); [discriminate|].
    destruct (Z.eqb_spec (decimal_value h * 3600 + decimal_value m * 60 + decimal_value s) 0);
      [discriminate|]. intros [= <-]. lia.
  - unfold classify_ms. destruct (60 <=? _); [discriminate|].
    destruct (Z.eqb_spec (decimal_value m * 60 + decimal_value s) 0);
      [discriminate|]. intros [= <-]. lia.
Qed.

Lemma ticks_idle n a :
  coherent a -> isRunning (state a) = false -> ticks n a = a.
Proof.
  intros H Hr. induction n as [|n IH]; [reflexivity|].
  cbn [ticks]. rewrite (tick_coherent a H), Hr. exact IH.
Qed.

Lemma exitEditMode_cancel a :
  exitEditMode false a
  = updateDisplay (with_state (set_isEditMode false)
                     (with_timeInputs (tail (timeInputs a)) a)).
Proof. unfold exitEditMode. destruct (head (timeInputs a)); reflexivity. Qed.

Lemma bounds_intervalCallback a :
  countdown_bounds a -> countdown_bounds (intervalCallback a).
Proof.
  unfold countdown_bounds. intros [Ht Hc].
  destruct a as [[m r c t e] iid live nh ? ? ? ? ? ?]; cbn in *.
  destruct m; unfold intervalCallback; cbn -[Z.max Z.eqb].
  - specialize (Hc eq_refl).
    destruct (Z.max 0 (c - 1) =? 0).
    + unfold onTimerComplete, stopTimer, pauseTimer. cbn -[Z.max].
      destruct r; cbn -[Z.max]; try destruct iid; cbn -[Z.max]; split; intros; lia.
    + cbn -[Z.max]. split; intros; lia.
  - split; [exact Ht | discriminate].
Qed.

Lemma bounds_step e a :
  coherent a -> countdown_bounds a -> nonneg_event e -> countdown_bounds (step e a).
Proof.
  intros H Hb He. destruct e; cbn [step nonneg_event] in *.
  - unfold toggleTimer. destruct (isRunning (state a)) eqn:Hr.
    + rewrite (pauseTimer_coherent a H). exact Hb.
    + rewrite (startTimer_paused a H Hr). exact Hb.
  - unfold resetTimer, stopTimer. rewrite (pauseTimer_coherent a H).
    destruct Hb as [Ht Hc]. destruct a as [[m r c t e] ? ? ? ? ? ? ? ? ?]; cbn in *.
    destruct m; split; cbn; intros; try discriminate; lia.
  - rewrite (tick_coherent a H).
    destruct (isRunning (state a)); [apply bounds_intervalCallback|]; exact Hb.
  - unfold toggleMode, stopTimer.
    set (a1 := if isEditMode (state a) then exitEditMode false a else a).
    assert (H1 : coherent a1)
      by (subst a1; destruct (isEditMode (state a)); [apply coherent_exitEditMode|]; exact H).
    assert (Hs : mode (state a1) = mode (state a) /\ totalTime (state a1) = totalTime (state a))
      by (subst a1; destruct (isEditMode (state a));
          [rewrite exitEditMode_cancel|]; split; reflexivity).
    rewrite (pauseTimer_coherent a1 H1). destruct Hs as [Hm Ht], Hb as [Hb _].
    unfold countdown_bounds. cbn. rewrite Hm, Ht.
    destruct (mode (state a)); cbn; split; intros; try discriminate; lia.
  - unfold setTime, stopTimer.
    set (a1 := if isEditMode (state a) then exitEditMode false a else a).
    assert (H1 : coherent a1)
      by (subst a1; destruct (isEditMode (state a)); [apply coherent_exitEditMode|]; exact H).
    rewrite (pauseTimer_coherent a1 H1). unfold countdown_bounds. cbn. lia.
  - unfold enterEditMode. destruct (isRunning (state a)) eqn:Hr.
    + rewrite (pauseTimer_coherent a H). exact Hb.
    + exact Hb.
  - destruct save; [|rewrite exitEditMode_cancel; exact Hb].
    unfold exitEditMode. destruct (head (timeInputs a)) as [v|]; [|exact Hb].
    destruct (parseTimeInput v) as [n| |] eqn:Hp; try exact Hb.
    apply parseTimeInput_positive in Hp. unfold countdown_bounds. cbn. lia.
  - exact Hb.
  - unfold timeoutExpires. destruct (pendingTimeouts a); exact Hb.
  - exact Hb.
Qed.

Lemma bounds_run evs a :
  coherent a -> countdown_bounds a -> Forall nonneg_event evs ->
  countdown_bounds (run evs a).
Proof.
  revert a. induction evs as [|e evs IH]; intros a H Hb Hev; [exact Hb|].
  apply Forall_cons_iff in Hev as [He Hev].
  apply IH; [apply coherent_step, H | apply bounds_step; assumption | exact Hev].
Qed.



(** A countdown tick above one second to go: one second less, still
    running, no sound. *)
Lemma countdown_tick_on a :
  coherent a -> isRunning (state a) = true -> mode (state a) = COUNTDOWN ->
  1 < currentTime (state a) ->
  coherent (tick a) /\ isRunning (state (tick a)) = true /\
  mode (state (tick a)) = COUNTDOWN /\
  currentTime (state (tick a)) = currentTime (state a) - 1 /\
  soundsPlayed (tick a) = soundsPlayed a.
Proof.
  intros H Hr Hm Hc. split; [apply coherent_tick, H|].
  rewrite (tick_coherent a H), Hr.
  open_app a; try discriminate. cbn in Hm, Hc. subst m.
  unfold intervalCallback. cbn -[Z.max Z.eqb].
  destruct (Z.eqb_spec (Z.max 0 (c - 1)) 0) as [E | E]; [lia|].
  cbn -[Z.max]. repeat split; lia.
Qed.

(** The countdown tick at one second to go (or fewer): zero, stopped,
    the sound played once, the completion class set. *)
Lemma countdown_tick_last a :
  coherent a -> isRunning (state a) = true -> mode (state a) = COUNTDOWN ->
  currentTime (state a) <= 1 ->
  coherent (tick a) /\ isRunning (state (tick a)) = false /\
  currentTime (state (tick a)) = 0 /\ liveIntervals (tick a) = [] /\
  soundsPlayed (tick a) = S (soundsPlayed a) /\ timerComplete (tick a) = true.
Proof.
  intros H Hr Hm Hc. split; [apply coherent_tick, H|].
  rewrite (tick_coherent a H), Hr.
  open_app a; try discriminate. cbn in Hm, Hc. subst m.
  unfold intervalCallback. cbn -[Z.max Z.eqb].
  destruct (Z.eqb_spec (Z.max 0 (c - 1)) 0) as [E | E]; [|lia].
  eval_app. repeat split; lia.
Qed.

(** C2. From a countdown at 3 of 3 seconds that is not running, starting
    the timer and letting three seconds pass leaves [currentTime] at 0 and
    [isRunning] false, with the notification sound played exactly once: not
    before the third tick, once at it, and never again however many more
    seconds pass. *)
Theorem countdown_three_ticks (a : App) :
  coherent a -> isRunning (state a) = false -> mode (state a) = COUNTDOWN ->
  totalTime (state a) = 3 -> currentTime (state a) = 3 ->
  let finished := ticks 3 (startTimer a) in
  currentTime (state finished) = 0 /\
  isRunning (state finished) = false /\
  liveIntervals finished = [] /\
  soundsPlayed (ticks 2 (startTimer a)) = soundsPlayed a /\
  soundsPlayed finished = S (soundsPlayed a) /\
  timerComplete finished = true /\
  (forall n, soundsPlayed (ticks n finished) = S (soundsPlayed a) /\
             state (ticks n finished) = state finished).
Proof.
  intros H Hr Hm Ht Hc finished.
  pose (a0 := startTimer a).
  assert (H0 : coherent a0 /\ isRunning (state a0) = true /\ mode (state a0) = COUNTDOWN /\
               currentTime (state a0) = 3 /\ soundsPlayed a0 = soundsPlayed a).
  { subst a0. split; [apply coherent_startTimer, H|].
    rewrite (startTimer_paused a H Hr). cbn. auto. }
  destruct H0 as (C0 & R0 & M0 & T0 & S0).
  destruct (countdown_tick_on a0 C0 R0 M0 ltac:(lia)) as (C1 & R1 & M1 & T1 & S1).
  destruct (countdown_tick_on (tick a0) C1 R1 M1 ltac:(lia)) as (C2 & R2 & M2 & T2 & S2).
  destruct (countdown_tick_last (tick (tick a0)) C2 R2 M2 ltac:(lia))
    as (C3 & R3 & T3 & L3 & S3 & F3).
  change (ticks 3 (startTimer a)) with (tick (tick (tick a0))) in finished.
  change (ticks 2 (startTimer a)) with (tick (tick a0)).
  subst finished.
  repeat split; try assumption; try congruence.
  - rewrite (ticks_idle n _ C3 R3). congruence.
  - rewrite (ticks_idle n _ C3 R3). reflexivity.
Qed.

Lemma countdown_three_ticks_witness :
  currentTime (state (ticks 3 (startTimer three_second_countdown))) = 0 /\
  isRunning (state (ticks 3 (startTimer three_second_countdown))) = false /\
  soundsPlayed (ticks 3 (startTimer three_second_countdown)) = 1%nat.
Proof.
  pose proof (countdown_three_ticks three_second_countdown
                coherent_initial eq_refl eq_refl eq_refl eq_refl)
    as (H1 & H2 & _ & _ & H5 & _).
  split; [exact H1|]. split; [exact H2 | exact H5].
Defined.






Lemma bounds_initial : countdown_bounds initialApp.
Proof. split; [cbn; lia | intros _; cbn; lia]. Defined.


(** Outside its precondition [setTime] is not guarded: a negative argument
    is stored as it is, and the countdown is then below 0. *)
Lemma setTime_negative_breaks_bounds :
  coherent initialApp /\ countdown_bounds initialApp /\
  mode (state (setTime (-5) initialApp)) = COUNTDOWN /\
  currentTime (state (setTime (-5) initialApp)) = -5 /\
  ~ (0 <= currentTime (state (setTime (-5) initialApp))
     <= totalTime (state (setTime (-5) initialApp))).
Proof.
  split; [exact coherent_initial|]. split; [exact bounds_initial|].
  split; [reflexivity|]. split; [reflexivity|]. cbn. lia.
Qed.

(** C6. From countdown mode, [toggleMode] switches to the stopwatch at 0
    and a second [toggleMode] brings the countdown back at its target:
    [totalTime] is the same throughout, and after either switch the timer
    is stopped, with no interval left to tick. *)
Theorem toggleMode_round_trip (a : App) :
  coherent a -> mode (state a) = COUNTDOWN ->
  let watch := toggleMode a in
  let back := toggleMode watch in
  mode (state watch) = STOPWATCH /\ currentTime (state watch) = 0 /\
  totalTime (state watch) = totalTime (state a) /\
  isRunning (state watch) = false /\ intervalId watch = None /\
  liveIntervals watch = [] /\ tick watch = watch /\
  mode (state back) = COUNTDOWN /\ currentTime (state back) = totalTime (state a) /\
  totalTime (state back) = totalTime (state a) /\
  isRunning (state back) = false /\ intervalId back = None /\
  liveIntervals back = [] /\ tick back = back.
Proof.
  intros H Hm watch back.
  assert (Hshape : forall x, coherent x ->
            toggleMode x
            = updateDisplay
                (mkApp (mkState
                          (if TimerMode_eqb (mode (state x)) COUNTDOWN
                           then STOPWATCH else COUNTDOWN)
                          false
                          (if TimerMode_eqb (mode (state x)) COUNTDOWN
                           then 0 else totalTime (state x))
                          (totalTime (state x)) false)
                       None [] (nextHandle x)
                       (if isEditMode (state x) then tail (timeInputs x) else timeInputs x)
                       (displayText x) (timerComplete x) (pendingTimeouts x)
                       (soundsPlayed x) (windowShows x))).
  { intros x Hx. unfold toggleMode, stopTimer.
    destruct (isEditMode (state x)) eqn:He.
    - rewrite exitEditMode_cancel, pauseTimer_coherent
        by (rewrite <- exitEditMode_cancel; apply coherent_exitEditMode, Hx).
      destruct x as [[m r c t e] ? ? ? ? ? ? ? ? ?]; cbn in *. destruct m; reflexivity.
    - rewrite pauseTimer_coherent by exact Hx.
      destruct x as [[m r c t e] ? ? ? ? ? ? ? ? ?]; cbn in *. subst e.
      destruct m; reflexivity. }
  assert (Hw : coherent watch) by (apply (coherent_step EvToggleMode), H).
  assert (Hk : coherent back) by (apply (coherent_step EvToggleMode), Hw).
  assert (Hwatch : mode (state watch) = STOPWATCH /\ currentTime (state watch) = 0 /\
                   totalTime (state watch) = totalTime (state a) /\
                   isRunning (state watch) = false /\ intervalId watch = None /\
                   liveIntervals watch = []).
  { subst watch. rewrite (Hshape a H), Hm. cbn. auto 10. }
  destruct Hwatch as (W1 & W2 & W3 & W4 & W5 & W6).
  assert (Hback : mode (state back) = COUNTDOWN /\
                  currentTime (state back) = totalTime (state a) /\
                  totalTime (state back) = totalTime (state a) /\
                  isRunning (state back) = false /\ intervalId back = None /\
                  liveIntervals back = []).
  { subst back. rewrite (Hshape watch Hw), W1, W3. cbn. auto 10. }
  destruct Hback as (B1 & B2 & B3 & B4 & B5 & B6).
  repeat split; try assumption.
  - rewrite (tick_coherent watch Hw), W4. reflexivity.
  - rewrite (tick_coherent back Hk), B4. reflexivity.
Qed.

Lemma toggleMode_round_trip_witness :
  currentTime (state (toggleMode countdown_45_of_120)) = 0 /\
  currentTime (state (toggleMode (toggleMode countdown_45_of_120))) = 120 /\
  totalTime (state (toggleMode (toggleMode countdown_45_of_120))) = 120.
Proof.
  pose proof (toggleMode_round_trip countdown_45_of_120 coherent_initial eq_refl)
    as (_ & H2 & _ & _ & _ & _ & _ & _ & H9 & H10 & _).
  split; [exact H2|]. split; [exact H9 | exact H10].
Defined.

(** C10. For every integer s, zero and negative ones included, [setTime s]
    stops the timer (flag off, no interval left), leaves edit mode without
    saving, sets [currentTime] and [totalTime] to s as given, and asks for
    the window to be shown: the argument is not validated. *)
Theorem setTime_unconditional (s : Z) (a : App) :
  coherent a ->
  let b := setTime s a in
  isRunning (state b) = false /\ intervalId b = None /\ liveIntervals b = [] /\
  tick b = b /\
  isEditMode (state b) = false /\
  timeInputs b = (if isEditMode (state a) then tail (timeInputs a) else timeInputs a) /\
  currentTime (state b) = s /\ totalTime (state b) = s /\
  mode (state b) = mode (state a) /\
  displayText b = formatTime s /\
  windowShows b = S (windowShows a).
Proof.
  intros H b.
  assert (Hshape :
            b = mkApp (mkState (mode (state a)) false s s false) None [] (nextHandle a)
                      (if isEditMode (state a) then tail (timeInputs a) else timeInputs a)
                      (formatTime s) (timerComplete a) (pendingTimeouts a)
                      (soundsPlayed a) (S (windowShows a))).
  { subst b. unfold setTime, stopTimer.
    destruct (isEditMode (state a)) eqn:He.
    - rewrite exitEditMode_cancel, pauseTimer_coherent
        by (rewrite <- exitEditMode_cancel; apply coherent_exitEditMode, H).
      reflexivity.
    - rewrite pauseTimer_coherent by exact H.
      destruct a as [[m r c t e] ? ? ? ? ? ? ? ? ?]; cbn in *. subst e. reflexivity. }
  repeat split; rewrite Hshape; reflexivity.
Qed.

Lemma setTime_unconditional_witness :
  currentTime (state (setTime (-5) initialApp)) = -5 /\
  totalTime (state (setTime 0 (startTimer (enterEditMode initialApp)))) = 0 /\
  isRunning (state (setTime 0 (startTimer (enterEditMode initialApp)))) = false /\
  isEditMode (state (setTime 0 (startTimer (enterEditMode initialApp)))) = false.
Proof.
  pose proof (setTime_unconditional (-5) initialApp coherent_initial)
    as (_ & _ & _ & _ & _ & _ & H1 & _).
  pose proof (setTime_unconditional 0 (startTimer (enterEditMode initialApp))
                (coherent_startTimer _ (coherent_step EvEnterEdit _ coherent_initial)))
    as (H2 & _ & _ & _ & H3 & _ & _ & H4 & _).
  split; [exact H1|]. split; [exact H4|]. split; [exact H2 | exact H3].
Defined.

End Engine.

(** ** The preset editor *)

Section Presets.
Import SettingsWindow.

(** [parseHHMMSS] never takes the [NaN] branch, and a number it returns
    is positive. *)
Lemma parseHHMMSS_result input :
  parseHHMMSS input <> NotANumber /\
  (forall n, parseHHMMSS input = Seconds n -> (0 < n)%Z).
Proof.
  destruct (exec re_hms (trim input)) as [gs|] eqn:E.
  - apply exec_hms_inv in E as (h & m & s & _ & Ht & Hh & Hm & Hs).
    rewrite (parseHHMMSS_hms _ _ _ _ Ht Hh Hm Hs).
    split; [apply classify_hms_not_zero|].
    pose proof (decimal_value_nonneg _ (is_field_digits _ _ _ Hh)).
    pose proof (decimal_value_nonneg _ (is_field_digits _ _ _ Hm)).
    pose proof (decimal_value_nonneg _ (is_field_digits _ _ _ Hs)).
    unfold classify_hms. destruct (_ || _); [discriminate|].
    destruct (Z.eqb_spec (decimal_value h * 3600 + decimal_value m * 60 + decimal_value s) 0)
      as [Hz | Hnz]; [discriminate|].
    intros k [= <-]. lia.
  - unfold parseHHMMSS. destruct (trim input); [split; discriminate|].
    change SettingsWindow.re_hms with re_hms. rewrite E. split; discriminate.
Qed.

(** Every preset built from the inputs has a positive duration. *)
Lemma presets_of_positive ins p :
  In p (presets_of ins) -> (0 < seconds p)%Z.
Proof.
  unfold presets_of. rewrite in_flat_map. intros (i & _ & Hp).
  destruct (parseHHMMSS (value i)) as [n | e |] eqn:E; cbn in Hp; try contradiction.
  destruct Hp as [<- | []]. cbn. apply (parseHHMMSS_result (value i)), E.
Qed.

Lemma saveInput_step np he seen i :
  exists seen',
    saveInput (np, he, seen) i
    = (np ++ presets_of [i], he || invalid_entry i, seen').
Proof.
  unfold saveInput, presets_of, invalid_entry, validateInput. cbn [flat_map].
  rewrite app_nil_r.
  destruct (trim (value i)) as [|c v] eqn:Et.
  - rewrite (trim_nil_parse _ Et), app_nil_r, orb_true_r. eexists. reflexivity.
  - rewrite <- Et, parseHHMMSS_trim.
    destruct (parseHHMMSS (value i)) as [n | e |]; cbn [negb fst snd].
    + rewrite orb_false_r. eexists. reflexivity.
    + rewrite app_nil_r, orb_true_r. eexists. reflexivity.
    + rewrite app_nil_r, orb_false_r. eexists. reflexivity.
Qed.

Lemma presets_of_cons i ins : presets_of (i :: ins) = presets_of [i] ++ presets_of ins.
Proof. unfold presets_of. cbn [flat_map]. rewrite app_nil_r. reflexivity. Qed.

(** The loop of [savePresets] in closed form: the presets of the entries
    that pass, and whether some entry was turned down. *)
Lemma fold_saveInput ins :
  forall np he seen,
  exists seen',
    fold_left saveInput ins (np, he, seen)
    = (np ++ presets_of ins, he || existsb invalid_entry ins, seen').
Proof.
  induction ins as [|i ins IH]; intros np he seen.
  - cbn. rewrite app_nil_r, orb_false_r. eexists. reflexivity.
  - cbn [fold_left existsb].
    destruct (saveInput_step np he seen i) as [seen1 ->].
    destruct (IH (np ++ presets_of [i]) (he || invalid_entry i) seen1) as [seen2 ->].
    rewrite (presets_of_cons i ins), app_assoc, orb_assoc. eexists. reflexivity.
Qed.

Lemma savePresets_closed w :
  exists marked,
    savePresets w
    = if existsb invalid_entry (inputs w)
      then (InvalidEntries, alert AlertInvalidFormats (with_inputs marked w))
      else if (length (presets_of (inputs w)) =? 0)%nat
      then (EmptyListError, alert AlertNoPreset (with_inputs marked w))
      else (Saved,
            mkWindow (presetsVar w)
              (Some (set_presets (presets_of (inputs w))
                       (match stored w with Some s => s | None => defaultSettings end)))
              marked (alerts w) (emitted w ++ [presets_of (inputs w)]) true).
Proof.
  unfold savePresets.
  destruct (fold_saveInput (inputs w) [] false []) as [marked ->].
  exists marked. cbn [app orb]. reflexivity.
Qed.

(** C4. [savePresets] turns the whole batch down when some entry is
    invalid or when there is nothing to save: the outcome is then
    [InvalidEntries], or [EmptyListError] for an empty batch, and the
    stored settings, the [presets] variable and the emitted events are
    exactly as before, whatever the other entries hold. Only a batch in
    which every entry passes is stored, and then as a whole. *)
Theorem savePresets_all_or_nothing (w : Window) :
  (forall i, In i (inputs w) -> invalid_entry i = true ->
     fst (savePresets w) = InvalidEntries) /\
  (inputs w = [] -> fst (savePresets w) = EmptyListError) /\
  (fst (savePresets w) <> Saved ->
     stored (snd (savePresets w)) = stored w /\
     presetsVar (snd (savePresets w)) = presetsVar w /\
     emitted (snd (savePresets w)) = emitted w /\
     closed (snd (savePresets w)) = closed w) /\
  (fst (savePresets w) = Saved ->
     existsb invalid_entry (inputs w) = false /\
     presets_of (inputs w) <> [] /\
     (exists s, stored (snd (savePresets w)) = Some s /\
                presets s = Some (presets_of (inputs w))) /\
     emitted (snd (savePresets w)) = emitted w ++ [presets_of (inputs w)]).
Proof.
  destruct (savePresets_closed w) as [marked ->].
  split; [|split; [|split]].
  - intros i Hi Hinv.
    assert (E : existsb invalid_entry (inputs w) = true)
      by (apply existsb_exists; exists i; auto).
    rewrite E. reflexivity.
  - intros ->. reflexivity.
  - destruct (existsb invalid_entry (inputs w)); [cbn; auto|].
    destruct (length (presets_of (inputs w)) =? 0)%nat; [cbn; auto|].
    cbn. intros Hne. contradiction.
  - destruct (existsb invalid_entry (inputs w)); [discriminate|].
    destruct (presets_of (inputs w)) as [|p ps] eqn:E; [discriminate|].
    cbn. intros _. split; [reflexivity|]. split; [discriminate|].
    split; [|reflexivity]. eexists. split; reflexivity.
Qed.

(** A batch whose second entry is out of range is not stored, not even
    its first and third entries; an empty batch is not stored either. *)
Lemma savePresets_examples :
  let edited := with_inputs (<[1%nat := mkInput (js "00:75:00") false false]>
                               (inputs defaultWindow)) defaultWindow in
  fst (savePresets edited) = InvalidEntries /\
  stored (snd (savePresets edited)) = None /\
  fst (savePresets (with_inputs [] defaultWindow)) = EmptyListError /\
  stored (snd (savePresets (with_inputs [] defaultWindow))) = None /\
  fst (savePresets defaultWindow) = Saved.
Proof. repeat split; reflexivity. Qed.

(** C8, as the code has it. On a list of one preset [deletePreset] raises
    the alert and changes nothing else. On a longer list, for an index
    inside it, the element at the index is removed once the user accepts
    the [confirm] dialog: the others keep their order, those before the
    index in place and those after it one position down; when the user
    declines, nothing changes. *)
Theorem deletePreset_spec (index : nat) (confirmed : bool) (w : Window) :
  (length (presetsVar w) = 1%nat ->
     deletePreset index confirmed w = (LastPresetError, alert AlertLastPreset w) /\
     presetsVar (snd (deletePreset index confirmed w)) = presetsVar w) /\
  ((1 < length (presetsVar w))%nat -> (index < length (presetsVar w))%nat ->
     (confirmed = true ->
        fst (deletePreset index confirmed w) = Deleted /\
        presetsVar (snd (deletePreset index confirmed w)) = delete index (presetsVar w) /\
        length (presetsVar (snd (deletePreset index confirmed w)))
        = (length (presetsVar w) - 1)%nat /\
        (forall j, (j < index)%nat ->
           presetsVar (snd (deletePreset index confirmed w)) !! j = presetsVar w !! j) /\
        (forall j, (index <= j)%nat ->
           presetsVar (snd (deletePreset index confirmed w)) !! j = presetsVar w !! S j)) /\
     (confirmed = false -> deletePreset index confirmed w = (Declined, w))).
Proof.
  split.
  - intros Hl. unfold deletePreset. rewrite Hl. cbn. auto.
  - intros Hl Hi. unfold deletePreset.
    replace (length (presetsVar w) =? 1)%nat with false
      by (symmetry; apply Nat.eqb_neq; lia).
    destruct (lookup_lt_is_Some_2 (presetsVar w) index Hi) as [p Hp].
    rewrite Hp. split; intros ->; [|reflexivity].
    cbn [fst snd renderPresets with_presets with_inputs presetsVar].
    repeat split.
    + apply length_delete. eauto.
    + intros j Hj. apply list_lookup_delete_lt, Hj.
    + intros j Hj. apply list_lookup_delete_ge, Hj.
Qed.

Lemma deletePreset_spec_witness :
  presetsVar (snd (deletePreset 1 true defaultWindow))
  = [mkPreset 180 (js "3 minutes"); mkPreset 1500 (js "25 minutes (Pomodoro)")] /\
  fst (deletePreset 0 true (with_presets [mkPreset 180 (js "3 minutes")] defaultWindow))
  = LastPresetError.
Proof.
  destruct (deletePreset_spec 1 true defaultWindow) as [_ H].
  destruct (H ltac:(cbn; lia) ltac:(cbn; lia)) as [Hyes _].
  destruct (Hyes eq_refl) as (_ & Hdel & _).
  destruct (deletePreset_spec 0 true
              (with_presets [mkPreset 180 (js "3 minutes")] defaultWindow)) as [Hone _].
  destruct (Hone eq_refl) as [Hlast _].
  split; [rewrite Hdel; reflexivity | rewrite Hlast; reflexivity].
Defined.

(** C8 as worded fails when the user declines the [confirm] dialog: the
    list has three presets, the index is inside it, and nothing is
    removed. *)
Lemma deletePreset_declined_keeps_list :
  (1 < length (presetsVar defaultWindow))%nat /\
  (0 < length (presetsVar defaultWindow))%nat /\
  presetsVar (snd (deletePreset 0 false defaultWindow)) = presetsVar defaultWindow /\
  presetsVar (snd (deletePreset 0 false defaultWindow))
  <> delete 0%nat (presetsVar defaultWindow).
Proof.
  split; [cbn; lia|]. split; [cbn; lia|]. split; [reflexivity|].
  vm_compute. discriminate.
Qed.

End Presets.

(** ** The colour bands *)

Section Bands.
Local Open Scope float_scope.

(** C9. [dynamicGradient] sends a ratio to the band of the first threshold
    it strictly exceeds, going down from 0.9 to 0.1, and to the last band
    when it exceeds none; the ten bands carry ten different gradients, each
    one reached; a ratio on a threshold falls in the band below it; so
    0.95 and 0.85 get different gradients, and 0.0 and 0.05 both get the
    lowest one. *)
Theorem dynamic_gradient_bands (p : float) :
  dynamicGradient p = nth (band_index thresholds p) bands deepRed /\
  updateDynamicColor (Some (js "dynamic")) p = Some (dynamicGradient p) /\
  length bands = 10%nat /\ NoDup bands /\
  map dynamicGradient [0.95; 0.85; 0.75; 0.65; 0.55; 0.45; 0.35; 0.25; 0.15; 0.05]
  = bands /\
  map dynamicGradient [1; 0.9; 0.8; 0.7; 0.6; 0.5; 0.4; 0.3; 0.2; 0.1; 0]
  = deepGreen :: tail bands ++ [deepRed] /\
  dynamicGradient 0.95 <> dynamicGradient 0.85 /\
  dynamicGradient 0 = dynamicGradient 0.05 /\
  dynamicGradient 0.05 = deepRed.
Proof.
  split.
  { unfold dynamicGradient, thresholds, bands. cbn [band_index].
    repeat match goal with
      | |- context [(?t <? p)] => destruct (t <? p)
      end; reflexivity. }
  split; [reflexivity|].
  split; [reflexivity|].
  split; [apply (bool_decide_unpack _); vm_compute; reflexivity|].
  split; [vm_compute; reflexivity|].
  split; [vm_compute; reflexivity|].
  split; [vm_compute; discriminate|].
  split; vm_compute; reflexivity.
Qed.

End Bands.

(** * Further properties of the two windows *)

(** ** The texts the windows write and read back *)

Section Texts.
Local Open Scope Z_scope.

Lemma field_bound lo g :
  (0 < lo)%nat -> is_field lo 2 g = true -> 0 <= decimal_value g <= 99.
Proof.
  intros Hlo H. unfold is_field in H.
  apply andb_true_iff in H as [H Hd]. apply andb_true_iff in H as [H1 H2].
  apply Nat.leb_le in H1, H2.
  destruct g as [|a [|b [|c g]]]; cbn [length] in *; try lia.
  - cbn in Hd. rewrite andb_true_r in Hd.
    pose proof (digit_value_range a Hd). cbn. lia.
  - cbn in Hd. rewrite andb_true_r in Hd. apply andb_true_iff in Hd as [Ha Hb].
    pose proof (digit_value_range a Ha). pose proof (digit_value_range b Hb).
    cbn. lia.
Qed.

(** The three-field text of a time below one hundred hours. *)
Lemma three_fields t :
  0 <= t < 100 * 3600 ->
  let tt := HMS (pad2 (hoursOf t)) (pad2 (minutesOf t)) (pad2 (secondsOf t)) in
  formatEditSeed t = text_of tt /\ well_shaped tt = true /\
  hours_field tt = hoursOf t /\ minutes_field tt = minutesOf t /\
  seconds_field tt = secondsOf t.
Proof.
  intros Ht tt. destruct (split_time t ltac:(lia)) as (Hh & Hm & Hs & Hsum).
  assert (hoursOf t < 100) by lia.
  destruct (pad2_field (hoursOf t) ltac:(lia)) as [Fh Vh].
  destruct (pad2_field (minutesOf t) ltac:(lia)) as [Fm Vm].
  destruct (pad2_field (secondsOf t) ltac:(lia)) as [Fs Vs].
  subst tt. cbn [text_of well_shaped hours_field minutes_field seconds_field].
  rewrite (field_2_is_1_2 _ Fh), Fm, Fs. auto.
Qed.

Lemma classify_hms_split t :
  0 < t < 100 * 3600 ->
  classify_hms (hoursOf t) (minutesOf t) (secondsOf t) = Seconds t.
Proof.
  intros Ht. destruct (split_time t ltac:(lia)) as (Hh & Hm & Hs & Hsum).
  unfold classify_hms.
  rewrite (leb_false 60 (minutesOf t)), (leb_false 60 (secondsOf t)) by lia.
  cbn [orb]. rewrite <- Hsum.
  replace (t =? 0) with false by (symmetry; apply Z.eqb_neq; lia). reflexivity.
Qed.

Lemma seed_parses t :
  0 < t < 100 * 3600 -> parseTimeInput (formatEditSeed t) = Seconds t.
Proof.
  intros Ht. destruct (three_fields t ltac:(lia)) as (Hx & Hw & Vh & Vm & Vs).
  rewrite (parseTimeInput_shaped _ _ Hw) by (rewrite Hx; apply trim_shaped, Hw).
  cbn [hours_field minutes_field seconds_field] in Vh, Vm, Vs.
  cbn [classify]. rewrite Vh, Vm, Vs. apply classify_hms_split, Ht.
Qed.

Lemma display_parses t :
  0 < t < 100 * 3600 -> parseTimeInput (formatTime t) = Seconds t.
Proof.
  intros Ht. destruct (Z.le_gt_cases 3600 t) as [Hlong | Hshort].
  - destruct (formatTime_long t ltac:(lia)) as (Hx & Hw & Vh & Vm & Vs).
    rewrite (parseTimeInput_shaped _ _ Hw) by (rewrite Hx; apply trim_shaped, Hw).
    cbn [hours_field minutes_field seconds_field] in Vh, Vm, Vs.
    cbn [classify]. rewrite Vh, Vm, Vs. apply classify_hms_split, Ht.
  - destruct (formatTime_short t ltac:(lia)) as (Hx & Hw & Vh & Vm & Vs).
    rewrite (parseTimeInput_shaped _ _ Hw) by (rewrite Hx; apply trim_shaped, Hw).
    cbn [minutes_field seconds_field] in Vm, Vs.
    cbn [classify]. rewrite Vm, Vs.
    destruct (split_time t ltac:(lia)) as (Hh & Hm & Hs & Hsum).
    unfold classify_ms. rewrite (leb_false 60 (secondsOf t)) by lia.
    replace (minutesOf t * 60 + secondsOf t) with t by lia.
    replace (t =? 0) with false by (symmetry; apply Z.eqb_neq; lia). reflexivity.
Qed.

Lemma preset_text_is_seed t : SettingsWindow.formatSecondsToHHMMSS t = formatEditSeed t.
Proof. reflexivity. Qed.

Lemma preset_text_parses t :
  0 < t < 100 * 3600 ->
  SettingsWindow.parseHHMMSS (SettingsWindow.formatSecondsToHHMMSS t) = Seconds t.
Proof.
  intros Ht. rewrite preset_text_is_seed.
  destruct (three_fields t ltac:(lia)) as (Hx & Hw & Vh & Vm & Vs).
  apply well_shaped_hms in Hw as (Fh & Fm & Fs).
  rewrite (parseHHMMSS_hms _ _ _ _
             (eq_trans (f_equal trim Hx) (trim_hms _ _ _ Fh Fm Fs)) Fh Fm Fs).
  cbn [hours_field minutes_field seconds_field] in Vh, Vm, Vs.
  rewrite Vh, Vm, Vs. apply classify_hms_split, Ht.
Qed.

(** X1. The text the preset editor writes for a duration s with
    0 < s < 100 hours is read back by [parseHHMMSS] as s, and by the
    inline editor's [parseTimeInput] as well; the text of a zero duration
    is turned down by both. *)
Theorem preset_text_roundtrip (s : Z) :
  0 < s < 100 * 3600 ->
  SettingsWindow.parseHHMMSS (SettingsWindow.formatSecondsToHHMMSS s) = Seconds s /\
  parseTimeInput (SettingsWindow.formatSecondsToHHMMSS s) = Seconds s /\
  SettingsWindow.parseHHMMSS (SettingsWindow.formatSecondsToHHMMSS 0) = Null ZeroDuration /\
  parseTimeInput (SettingsWindow.formatSecondsToHHMMSS 0) = Null ZeroDuration.
Proof.
  intros Hs. split; [apply preset_text_parses, Hs|].
  rewrite !preset_text_is_seed.
  split; [apply seed_parses, Hs | split; reflexivity].
Qed.

Lemma preset_text_roundtrip_witness :
  0 < 1500 < 100 * 3600 /\
  SettingsWindow.parseHHMMSS (SettingsWindow.formatSecondsToHHMMSS 1500) = Seconds 1500 /\
  SettingsWindow.formatSecondsToHHMMSS 1500 = js "00:25:00".
Proof.
  split; [lia|]. split; [apply (preset_text_roundtrip 1500); lia | reflexivity].
Defined.

(** X2. A number [parseTimeInput] returns lies between 1 second and
    99:59:59, so the display writes it as a text the parser reads back as
    the same number: a committed edit survives being displayed and edited
    again. *)
Theorem parsed_time_in_range (input : jsstring) (n : Z) :
  parseTimeInput input = Seconds n ->
  0 < n <= 359999 /\
  parseTimeInput (formatTime n) = Seconds n /\
  parseTimeInput (formatEditSeed n) = Seconds n.
Proof.
  intros Hp.
  assert (Hr : 0 < n <= 359999).
  { destruct (parseTimeInput_complete input) as [(t & Hw & Ht) | H]; [|congruence].
    rewrite (parseTimeInput_shaped _ _ Hw Ht) in Hp.
    destruct t as [h m s | m s]; cbn [classify] in Hp.
    - apply well_shaped_hms in Hw as (Fh & Fm & Fs).
      pose proof (field_bound 1 h ltac:(lia) Fh).
      pose proof (field_bound 2 m ltac:(lia) Fm).
      pose proof (field_bound 2 s ltac:(lia) Fs).
      unfold classify_hms in Hp.
      destruct (Z.leb_spec 60 (decimal_value m)); [discriminate|].
      destruct (Z.leb_spec 60 (decimal_value s)); [discriminate|].
      cbn [orb] in Hp.
      destruct (Z.eqb_spec (decimal_value h * 3600 + decimal_value m * 60 + decimal_value s) 0);
        [discriminate|].
      injection Hp as <-. lia.
    - apply well_shaped_ms in Hw as (Fm & Fs).
      pose proof (field_bound 1 m ltac:(lia) Fm).
      pose proof (field_bound 2 s ltac:(lia) Fs).
      unfold classify_ms in Hp.
      destruct (Z.leb_spec 60 (decimal_value s)); [discriminate|].
      destruct (Z.eqb_spec (decimal_value m * 60 + decimal_value s) 0); [discriminate|].
      injection Hp as <-. lia. }
  split; [exact Hr|].
  split; [apply display_parses | apply seed_parses]; lia.
Qed.

Lemma parsed_time_in_range_witness :
  parseTimeInput (js "99:59:59") = Seconds 359999 /\
  parseTimeInput (formatTime 359999) = Seconds 359999.
Proof.
  pose proof (parsed_time_in_range (js "99:59:59") 359999 eq_refl) as (_ & H & _).
  split; [reflexivity | exact H].
Defined.

(** X3. Whatever the preset editor's [parseHHMMSS] accepts, the inline
    editor's [parseTimeInput] accepts with the same result; more, the two
    agree on every input that [parseHHMMSS] does not answer with
    [InvalidFormat]. The converse fails: the two-field form is accepted by
    [parseTimeInput] only. *)
Theorem parsers_agree (input : jsstring) :
  SettingsWindow.parseHHMMSS input <> Null InvalidFormat ->
  parseTimeInput input = SettingsWindow.parseHHMMSS input.
Proof.
  intros Hne.
  destruct (exec re_hms (trim input)) as [gs|] eqn:E.
  - apply exec_hms_inv in E as (h & m & s & _ & Ht & Hh & Hm & Hs).
    rewrite (parseHHMMSS_hms _ _ _ _ Ht Hh Hm Hs).
    apply parseTimeInput_hms; assumption.
  - exfalso. apply Hne. unfold SettingsWindow.parseHHMMSS.
    destruct (trim input); [reflexivity|].
    change SettingsWindow.re_hms with re_hms. rewrite E. reflexivity.
Qed.

Lemma parsers_agree_witness :
  parseTimeInput (js "01:30:00") = SettingsWindow.parseHHMMSS (js "01:30:00") /\
  parseTimeInput (js "25:00") = Seconds 1500 /\
  SettingsWindow.parseHHMMSS (js "25:00") = Null InvalidFormat.
Proof.
  split; [apply (parsers_agree (js "01:30:00")); vm_compute; discriminate|].
  split; reflexivity.
Defined.

Lemma filterTyped_cons c v :
  filterTyped (c :: v)
  = if is_digit c || (c =? ch ":")%N then c :: filterTyped v else filterTyped v.
Proof.
  unfold filterTyped. cbn [filter list_filter].
  destruct (decide _) as [Hd | Hd].
  - apply Is_true_true in Hd. cbn beta in Hd. rewrite Hd. reflexivity.
  - apply Is_true_false in Hd. cbn beta in Hd. rewrite Hd. reflexivity.
Qed.

(** X4. The filter on typed text goes through the text once, character by
    character: a digit or a colon is kept where it stands, as many times
    as it occurs, and any other character is dropped. So the filter of two
    texts put together is the two filtered texts put together, filtering
    again changes nothing, and a text of the two accepted forms is left as
    it is. *)
Theorem filterTyped_spec (v : jsstring) :
  filterTyped [] = [] /\
  (forall c, is_digit c = true \/ c = ch ":" -> filterTyped (c :: v) = c :: filterTyped v) /\
  (forall c, is_digit c = false -> c <> ch ":" -> filterTyped (c :: v) = filterTyped v) /\
  (forall u, filterTyped (u ++ v) = filterTyped u ++ filterTyped v) /\
  Forall (fun c => is_digit c = true \/ c = ch ":") (filterTyped v) /\
  (Forall (fun c => is_digit c = true \/ c = ch ":") v -> filterTyped v = v) /\
  filterTyped (filterTyped v) = filterTyped v /\
  (forall t, well_shaped t = true -> filterTyped (text_of t) = text_of t).
Proof.
  assert (Hkeep : forall c w, is_digit c = true \/ c = ch ":" ->
                              filterTyped (c :: w) = c :: filterTyped w).
  { intros c w Hc. rewrite filterTyped_cons.
    replace (is_digit c || (c =? ch ":")%N) with true; [reflexivity|].
    symmetry. apply orb_true_iff. destruct Hc as [Hc | ->]; [left; exact Hc|].
    right. apply N.eqb_refl. }
  assert (Hdrop : forall c w, is_digit c = false -> c <> ch ":" ->
                              filterTyped (c :: w) = filterTyped w).
  { intros c w Hd Hc. rewrite filterTyped_cons, Hd.
    replace (c =? ch ":")%N with false; [reflexivity|].
    symmetry. apply N.eqb_neq. exact Hc. }
  assert (Hall : forall w, Forall (fun c => is_digit c = true \/ c = ch ":") (filterTyped w)).
  { induction w as [|c w IH]; [constructor|].
    rewrite filterTyped_cons.
    destruct (is_digit c || (c =? ch ":")%N) eqn:E; [|exact IH].
    constructor; [|exact IH].
    apply orb_true_iff in E as [E | E]; [left; exact E | right; apply N.eqb_eq, E]. }
  assert (Hid : forall w, Forall (fun c => is_digit c = true \/ c = ch ":") w ->
                          filterTyped w = w).
  { induction 1 as [|c w Hc _ IH]; [reflexivity|].
    rewrite (Hkeep c w Hc), IH. reflexivity. }
  split; [reflexivity|]. split; [intros c; apply Hkeep|].
  split; [intros c; apply Hdrop|]. split; [|split; [apply Hall|]].
  - induction u as [|c u IH]; [reflexivity|].
    cbn [app]. rewrite !filterTyped_cons, IH.
    destruct (is_digit c || (c =? ch ":")%N); reflexivity.
  - split; [apply Hid|]. split; [apply Hid, Hall|].
    intros t Hw. apply Hid.
    apply Forall_forall. intros c Hc. apply list_elem_of_In in Hc.
    assert (Hf : forall lo hi g, is_field lo hi g = true -> In c g -> is_digit c = true).
    { intros lo hi g Hg Hin. apply is_field_digits in Hg.
      rewrite forallb_forall in Hg. apply Hg, Hin. }
    destruct t as [h m s | m s]; cbn [text_of] in Hc.
    + apply well_shaped_hms in Hw as (Hh & Hm & Hs).
      unfold hms_text in Hc. rewrite !in_app_iff in Hc.
      destruct Hc as [Hc | [[<- | []] | [Hc | [[<- | []] | Hc]]]]; eauto.
    + apply well_shaped_ms in Hw as (Hm & Hs).
      unfold ms_text in Hc. rewrite !in_app_iff in Hc.
      destruct Hc as [Hc | [[<- | []] | Hc]]; eauto.
Qed.

End Texts.

(** ** More on the engine *)

Section EngineRuns.
Local Open Scope Z_scope.

Ltac open_state a :=
  let m := fresh "m" in let r := fresh "r" in let c := fresh "c" in
  let t := fresh "t" in let e := fresh "e" in let iid := fresh "iid" in
  let live := fresh "live" in let nh := fresh "nh" in
  destruct a as [[m r c t e] iid live nh ? ? ? ? ? ?];
  unfold coherent in * |-; cbn [intervalId state isRunning liveIntervals] in * |-;
  destruct iid as [?h|];
  repeat match goal with
    | H : _ /\ _ |- _ => destruct H
    | H : r = _ |- _ => subst r
    | H : live = _ |- _ => subst live
    end.

Lemma ticks_succ n a : ticks (S n) a = tick (ticks n a).
Proof.
  revert a. induction n as [|n IH]; intros a; [reflexivity|].
  change (ticks (S (S n)) a) with (ticks (S n) (tick a)). rewrite IH. reflexivity.
Qed.

Lemma setTime_closed s a :
  coherent a ->
  setTime s a
  = mkApp (mkState (mode (state a)) false s s false) None [] (nextHandle a)
          (if isEditMode (state a) then tail (timeInputs a) else timeInputs a)
          (formatTime s) (timerComplete a) (pendingTimeouts a)
          (soundsPlayed a) (S (windowShows a)).
Proof.
  intros H. unfold setTime, stopTimer.
  destruct (isEditMode (state a)) eqn:He.
  - rewrite exitEditMode_cancel, pauseTimer_coherent
      by (rewrite <- exitEditMode_cancel; apply coherent_exitEditMode, H).
    reflexivity.
  - rewrite pauseTimer_coherent by exact H.
    destruct a as [[m r c t e] ? ? ? ? ? ? ? ? ?]; cbn in *. subst e. reflexivity.
Qed.

Lemma resetTimer_closed a :
  coherent a ->
  resetTimer a
  = mkApp (mkState (mode (state a)) false
             (if TimerMode_eqb (mode (state a)) COUNTDOWN then totalTime (state a) else 0)
             (totalTime (state a)) (isEditMode (state a)))
          None [] (nextHandle a) (timeInputs a)
          (formatTime (if TimerMode_eqb (mode (state a)) COUNTDOWN
                       then totalTime (state a) else 0))
          false (pendingTimeouts a) (soundsPlayed a) (windowShows a).
Proof.
  intros H. unfold resetTimer, stopTimer. rewrite (pauseTimer_coherent a H). reflexivity.
Qed.

(** X5. In every state the window reaches from its initial one, at most
    one interval is live; one is live exactly when [isRunning] is set, and
    it is the one held in [intervalId]. *)
Theorem single_live_interval (evs : list Event) :
  let b := run evs initialApp in
  (length (liveIntervals b) <= 1)%nat /\
  (isRunning (state b) = true <-> liveIntervals b <> []) /\
  (forall h, In h (liveIntervals b) <-> intervalId b = Some h).
Proof.
  intros b. pose proof (reachable_coherent evs) as H. fold b in H.
  unfold coherent in H. destruct (intervalId b) as [h|]; destruct H as [Hr Hl];
    rewrite Hr, Hl; cbn [length In].
  - split; [lia|]. split.
    + split; intros _; [discriminate | reflexivity].
    + intros k. split.
      * intros [-> | []]. reflexivity.
      * intros [= ->]. left. reflexivity.
  - split; [lia|]. split.
    + split; [discriminate | intros Hne; contradiction].
    + intros k. split; [intros [] | discriminate].
Qed.

Lemma sync_updateDisplay a : display_in_sync (updateDisplay a).
Proof. reflexivity. Qed.

Lemma sync_step e a : coherent a -> display_in_sync a -> display_in_sync (step e a).
Proof.
  intros H Hs. destruct e; cbn [step].
  - unfold toggleTimer. destruct (isRunning (state a)) eqn:Hr.
    + rewrite (pauseTimer_coherent a H). exact Hs.
    + rewrite (startTimer_paused a H Hr). exact Hs.
  - apply sync_updateDisplay.
  - rewrite (tick_coherent a H). destruct (isRunning (state a)); [|exact Hs].
    unfold intervalCallback. destruct (mode (state a)); apply sync_updateDisplay.
  - apply sync_updateDisplay.
  - rewrite (setTime_closed _ a H). reflexivity.
  - unfold enterEditMode. destruct (isRunning (state a)) eqn:Hr.
    + rewrite (pauseTimer_coherent a H). exact Hs.
    + exact Hs.
  - apply sync_updateDisplay.
  - exact Hs.
  - unfold timeoutExpires. destruct (pendingTimeouts a); exact Hs.
  - exact Hs.
Qed.

(** X6. Once [init] has drawn the display, every handler leaves it showing
    the current time: after any run of events the text of the display is
    the formatted [currentTime]. *)
Theorem display_follows_time (evs : list Event) :
  let b := run evs (updateDisplay initialApp) in
  displayText b = formatTime (currentTime (state b)).
Proof.
  assert (G : forall l a, coherent a -> display_in_sync a -> display_in_sync (run l a)).
  { induction l as [|e l IH]; intros a H Hs; [exact Hs|].
    apply IH; [apply coherent_step, H | apply sync_step; assumption]. }
  apply G; [split; reflexivity | reflexivity].
Qed.

(** X7. A running countdown with k+1 seconds to go, k+1 within the range
    in which the numbers of the program count exactly (2^53), loses one
    second per tick without a sound for k ticks, and at tick k+1 arrives
    at 0, stops, clears its interval and plays the notification once. *)
Theorem countdown_completes (k : nat) (a : App) :
  coherent a -> isRunning (state a) = true -> mode (state a) = COUNTDOWN ->
  currentTime (state a) = Z.of_nat (S k) -> Z.of_nat (S k) <= max_exact ->
  (forall j, (j <= k)%nat ->
     currentTime (state (ticks j a)) = Z.of_nat (S k) - Z.of_nat j /\
     isRunning (state (ticks j a)) = true /\
     soundsPlayed (ticks j a) = soundsPlayed a) /\
  currentTime (state (ticks (S k) a)) = 0 /\
  isRunning (state (ticks (S k) a)) = false /\
  liveIntervals (ticks (S k) a) = [] /\
  soundsPlayed (ticks (S k) a) = S (soundsPlayed a) /\
  timerComplete (ticks (S k) a) = true.
Proof.
  intros H Hr Hm Hc _.
  assert (G : forall j, (j <= k)%nat ->
            coherent (ticks j a) /\ mode (state (ticks j a)) = COUNTDOWN /\
            currentTime (state (ticks j a)) = Z.of_nat (S k) - Z.of_nat j /\
            isRunning (state (ticks j a)) = true /\
            soundsPlayed (ticks j a) = soundsPlayed a).
  { induction j as [|j IH]; intros Hj.
    - cbn [ticks]. repeat split; try assumption; try lia.
    - destruct (IH ltac:(lia)) as (Cj & Mj & Tj & Rj & Sj).
      rewrite ticks_succ.
      destruct (countdown_tick_on (ticks j a) Cj Rj Mj ltac:(lia))
        as (C' & R' & M' & T' & S').
      repeat split; try assumption; try lia; try congruence. }
  split.
  - intros j Hj. destruct (G j Hj) as (_ & _ & Tj & Rj & Sj). auto.
  - destruct (G k (le_n k)) as (Ck & Mk & Tk & Rk & Sk).
    rewrite ticks_succ.
    destruct (countdown_tick_last (ticks k a) Ck Rk Mk ltac:(lia))
      as (_ & R' & T' & L' & S' & F').
    repeat split; try assumption. congruence.
Qed.

Lemma countdown_completes_witness :
  currentTime (state (ticks 180 (startTimer initialApp))) = 0 /\
  soundsPlayed (ticks 180 (startTimer initialApp)) = 1%nat /\
  currentTime (state (ticks 100 (startTimer initialApp))) = 80.
Proof.
  pose proof (countdown_completes 179 (startTimer initialApp)
                (coherent_startTimer _ coherent_initial) eq_refl eq_refl eq_refl
                ltac:(vm_compute; discriminate))
    as (Hbefore & Hzero & _ & _ & Hsound & _).
  destruct (Hbefore 100%nat ltac:(lia)) as (H100 & _).
  split; [exact Hzero|]. split; [exact Hsound | exact H100].
Defined.

(** X8. Starting a countdown that already stands at 0 (or below, after a
    negative [setTime]) does not count: the first tick leaves it at 0,
    stops the timer again and plays the notification once more. *)
Theorem finished_countdown_restarts (a : App) :
  coherent a -> isRunning (state a) = false -> mode (state a) = COUNTDOWN ->
  currentTime (state a) <= 0 ->
  let b := tick (startTimer a) in
  currentTime (state b) = 0 /\ isRunning (state b) = false /\
  liveIntervals b = [] /\ soundsPlayed b = S (soundsPlayed a) /\
  timerComplete b = true /\ totalTime (state b) = totalTime (state a).
Proof.
  intros H Hr Hm Hc b.
  assert (H0 : coherent (startTimer a)) by (apply coherent_startTimer, H).
  assert (E : startTimer a
              = mkApp (set_isRunning true (state a)) (Some (nextHandle a)) [nextHandle a]
                      (S (nextHandle a)) (timeInputs a) (displayText a) (timerComplete a)
                      (pendingTimeouts a) (soundsPlayed a) (windowShows a))
    by (apply startTimer_paused; assumption).
  destruct (countdown_tick_last (startTimer a) H0) as (_ & R & T & L & S' & F).
  - rewrite E. reflexivity.
  - rewrite E. exact Hm.
  - rewrite E. cbn. lia.
  - subst b. repeat split; try assumption.
    + rewrite S', E. reflexivity.
    + rewrite (tick_coherent _ H0), E. cbn [state isRunning set_isRunning].
      unfold intervalCallback. cbn [state mode set_isRunning]. rewrite Hm.
      cbn -[Z.max Z.eqb].
      destruct (Z.max 0 (currentTime (state a) - 1) =? 0); [|reflexivity].
      unfold onTimerComplete, stopTimer, pauseTimer. cbn. reflexivity.
Qed.

Lemma finished_countdown_restarts_witness :
  soundsPlayed (tick (startTimer (ticks 180 (startTimer initialApp)))) = 2%nat /\
  currentTime (state (tick (startTimer (ticks 180 (startTimer initialApp))))) = 0.
Proof.
  pose proof (finished_countdown_restarts (ticks 180 (startTimer initialApp))
                (coherent_ticks _ _ (coherent_startTimer _ coherent_initial))
                eq_refl eq_refl ltac:(vm_compute; discriminate))
    as (Hz & _ & _ & Hs & _).
  split; [rewrite Hs; reflexivity | exact Hz].
Defined.

End EngineRuns.

(** ** Pausing, resetting and editing *)

Section EngineEdits.
Local Open Scope Z_scope.

(** X9. Pressing start/pause twice brings the timer back to where it was:
    mode, times, flags and display are those of before, and the interval
    table agrees with the flag again; a timer that was running runs on a
    fresh interval. *)
Theorem toggleTimer_twice (a : App) :
  coherent a ->
  let b := toggleTimer (toggleTimer a) in
  state b = state a /\ coherent b /\
  displayText b = displayText a /\ soundsPlayed b = soundsPlayed a /\
  timeInputs b = timeInputs a /\
  (isRunning (state a) = true -> intervalId b = Some (nextHandle a)) /\
  (isRunning (state a) = false -> intervalId b = None /\ liveIntervals b = []).
Proof.
  intros H b.
  assert (Hb : coherent b).
  { subst b. apply (coherent_step EvToggleTimer), (coherent_step EvToggleTimer), H. }
  assert (E : b = mkApp (state a)
                    (if isRunning (state a) then Some (nextHandle a) else None)
                    (if isRunning (state a) then [nextHandle a] else [])
                    (if isRunning (state a) then S (nextHandle a) else S (nextHandle a))
                    (timeInputs a) (displayText a) (timerComplete a)
                    (pendingTimeouts a) (soundsPlayed a) (windowShows a)).
  { subst b. unfold toggleTimer at 2. destruct (isRunning (state a)) eqn:Hr.
    - rewrite (pauseTimer_coherent a H). unfold toggleTimer.
      cbn [state isRunning set_isRunning].
      rewrite startTimer_paused by (split; reflexivity).
      destruct a as [[m r c t e] ? ? ? ? ? ? ? ? ?]; cbn in *. subst r. reflexivity.
    - rewrite (startTimer_paused a H Hr). unfold toggleTimer.
      cbn [state isRunning set_isRunning].
      rewrite pauseTimer_coherent by (split; reflexivity).
      destruct a as [[m r c t e] ? ? ? ? ? ? ? ? ?]; cbn in *. subst r. reflexivity. }
  split; [rewrite E; reflexivity|]. split; [exact Hb|].
  rewrite E. cbn. do 3 (split; [reflexivity|]). split; intros Hr; rewrite Hr; auto.
Qed.

Lemma toggleTimer_twice_witness :
  state (toggleTimer (toggleTimer (ticks 7 (startTimer initialApp))))
  = state (ticks 7 (startTimer initialApp)) /\
  currentTime (state (toggleTimer (toggleTimer (ticks 7 (startTimer initialApp))))) = 173.
Proof.
  pose proof (toggleTimer_twice (ticks 7 (startTimer initialApp))
                (coherent_ticks _ _ (coherent_startTimer _ coherent_initial)))
    as (Hs & _).
  split; [exact Hs | rewrite Hs; reflexivity].
Defined.

(** X10. [resetTimer] stops the timer, puts a countdown back at its target
    and a stopwatch back at 0, clears the completion class, and changes
    nothing when repeated; the mode and the target are kept, and a pending
    3-second timeout is left pending. *)
Theorem resetTimer_spec (a : App) :
  coherent a ->
  let b := resetTimer a in
  isRunning (state b) = false /\ liveIntervals b = [] /\
  mode (state b) = mode (state a) /\ totalTime (state b) = totalTime (state a) /\
  currentTime (state b)
  = (match mode (state a) with COUNTDOWN => totalTime (state a) | STOPWATCH => 0 end) /\
  timerComplete b = false /\ pendingTimeouts b = pendingTimeouts a /\
  resetTimer b = b.
Proof.
  intros H b.
  assert (E : b = _) by (apply (resetTimer_closed a H)).
  repeat split; rewrite E; cbn; destruct (mode (state a)); reflexivity.
Qed.

Lemma resetTimer_spec_witness :
  currentTime (state (resetTimer (ticks 7 (startTimer initialApp)))) = 180 /\
  isRunning (state (resetTimer (ticks 7 (startTimer initialApp)))) = false.
Proof.
  pose proof (resetTimer_spec (ticks 7 (startTimer initialApp))
                (coherent_ticks _ _ (coherent_startTimer _ coherent_initial)))
    as (Hr & _ & _ & _ & Hc & _).
  split; [rewrite Hc; reflexivity | exact Hr].
Defined.

Lemma enterEditMode_closed a :
  coherent a ->
  enterEditMode a
  = mkApp (mkState (mode (state a)) false (currentTime (state a)) (totalTime (state a)) true)
          None [] (nextHandle a)
          (timeInputs a ++ [formatEditSeed (currentTime (state a))])
          (displayText a) (timerComplete a) (pendingTimeouts a)
          (soundsPlayed a) (windowShows a).
Proof.
  intros H. unfold enterEditMode. destruct (isRunning (state a)) eqn:Hr.
  - rewrite (pauseTimer_coherent a H). reflexivity.
  - unfold coherent in H.
    destruct a as [[m r c t e] iid live ? ? ? ? ? ? ?]; cbn in *. subst r.
    destruct iid; destruct H as [H1 H2]; [discriminate|]. subst live. reflexivity.
Qed.

(** X11. Opening the inline editor and committing its text untouched, with
    no other input on the page and a current time between 1 second and
    99:59:59, keeps [currentTime] but moves [totalTime] to it: the target
    of a countdown under way is replaced by the time that was left. The
    timer ends paused and out of edit mode. At a current time of 0 the
    seed "00:00:00" is turned down and both times stay. *)
Theorem commit_untouched_edit (a : App) :
  coherent a -> timeInputs a = [] ->
  let b := exitEditMode true (enterEditMode a) in
  (0 < currentTime (state a) < 100 * 3600 ->
     currentTime (state b) = currentTime (state a) /\
     totalTime (state b) = currentTime (state a)) /\
  (currentTime (state a) = 0 ->
     currentTime (state b) = 0 /\ totalTime (state b) = totalTime (state a)) /\
  isRunning (state b) = false /\ isEditMode (state b) = false /\
  mode (state b) = mode (state a) /\ timeInputs b = [].
Proof.
  intros H Hin b. subst b. rewrite (enterEditMode_closed a H), Hin.
  unfold exitEditMode. cbn [timeInputs head app].
  split; [|split].
  - intros Hc. rewrite (seed_parses _ Hc). cbn. auto.
  - intros ->. cbn. auto.
  - destruct (parseTimeInput (formatEditSeed (currentTime (state a)))); cbn; auto.
Qed.

Lemma commit_untouched_edit_witness :
  let paused := pauseTimer (ticks 60 (startTimer initialApp)) in
  currentTime (state paused) = 120 /\ totalTime (state paused) = 180 /\
  totalTime (state (exitEditMode true (enterEditMode paused))) = 120.
Proof.
  pose proof (commit_untouched_edit (pauseTimer (ticks 60 (startTimer initialApp)))
                (coherent_pauseTimer _
                   (coherent_ticks _ _ (coherent_startTimer _ coherent_initial)))
                eq_refl) as (H & _).
  destruct (H ltac:(vm_compute; split; reflexivity)) as [_ Ht].
  split; [reflexivity|]. split; [reflexivity|]. rewrite Ht. reflexivity.
Defined.

(** X12. Opening the inline editor and leaving it with Escape changes
    neither the mode nor the two times, whatever was typed in between into
    the input; what does not come back is a running timer, which stays
    paused. *)
Theorem cancel_edit (a : App) (typed : jsstring) :
  coherent a ->
  let b := exitEditMode false
             (step (EvTyped (length (timeInputs a)) typed) (enterEditMode a)) in
  mode (state b) = mode (state a) /\
  currentTime (state b) = currentTime (state a) /\
  totalTime (state b) = totalTime (state a) /\
  isRunning (state b) = false /\ isEditMode (state b) = false /\
  length (timeInputs b) = length (timeInputs a) /\
  (timeInputs a = [] -> timeInputs b = []).
Proof.
  intros H b. subst b. rewrite (enterEditMode_closed a H), exitEditMode_cancel.
  cbn [step with_timeInputs timeInputs state updateDisplay with_state set_isEditMode
       mode currentTime totalTime isRunning isEditMode].
  assert (Htl : forall x : list jsstring, length (tail x) = (length x - 1)%nat)
    by (intros [|? ?]; cbn; lia).
  repeat split.
  - rewrite Htl, length_insert, length_app. cbn. lia.
  - intros ->. reflexivity.
Qed.

Lemma cancel_edit_witness :
  currentTime (state (exitEditMode false
                        (step (EvTyped 0 (js "12:34")) (enterEditMode initialApp)))) = 180 /\
  totalTime (state (exitEditMode false
                      (step (EvTyped 0 (js "12:34")) (enterEditMode initialApp)))) = 180.
Proof.
  pose proof (cancel_edit initialApp (js "12:34") coherent_initial)
    as (_ & Hc & Ht & _).
  split; [exact Hc | exact Ht].
Defined.

Lemma editing_step e a : editing_has_input a -> editing_has_input (step e a).
Proof.
  unfold editing_has_input. intros Hinv.
  assert (Hexit : forall save x, isEditMode (state (exitEditMode save x)) = false).
  { intros save x. unfold exitEditMode.
    destruct (head (timeInputs x)); [destruct save; [destruct (parseTimeInput _)|]|];
      reflexivity. }
  assert (Hpause : forall x, isEditMode (state (pauseTimer x)) = isEditMode (state x)
                             /\ timeInputs (pauseTimer x) = timeInputs x).
  { intros x. unfold pauseTimer. destruct (negb _); [auto|].
    cbn. destruct (intervalId x); auto. }
  destruct e; cbn [step].
  - unfold toggleTimer. destruct (isRunning (state a)).
    + destruct (Hpause a) as [-> ->]. exact Hinv.
    + unfold startTimer. destruct (isRunning (state a)); exact Hinv.
  - unfold resetTimer, stopTimer. cbn. destruct (Hpause a) as [-> ->]. exact Hinv.
  - unfold tick.
    assert (G : forall l x, editing_has_input x ->
                editing_has_input (fold_left (fun acc h => fire h acc) l x)).
    { induction l as [|h l IH]; intros x Hx; [exact Hx|]. cbn [fold_left].
      apply IH. unfold fire. destruct (existsb _ _); [|exact Hx].
      unfold intervalCallback, editing_has_input in *.
      destruct (mode (state x)); cbn -[Z.max Z.eqb]; [|exact Hx].
      destruct (_ =? 0); cbn -[Z.max]; [|exact Hx].
      unfold stopTimer.
      set (y := with_state _ x).
      destruct (Hpause y) as [-> ->]. exact Hx. }
    apply G. exact Hinv.
  - unfold toggleMode, stopTimer. cbn. intros Hf.
    match type of Hf with isEditMode (state (pauseTimer ?y)) = true =>
      destruct (Hpause y) as [Hp _]; rewrite Hp in Hf end.
    destruct (isEditMode (state a)) eqn:He; [rewrite Hexit in Hf | rewrite He in Hf];
      discriminate.
  - unfold setTime, stopTimer. cbn. intros Hf.
    match type of Hf with isEditMode (state (pauseTimer ?y)) = true =>
      destruct (Hpause y) as [Hp _]; rewrite Hp in Hf end.
    destruct (isEditMode (state a)) eqn:He; [rewrite Hexit in Hf | rewrite He in Hf];
      discriminate.
  - unfold enterEditMode. intros _ Hnil. apply (f_equal length) in Hnil.
    cbn in Hnil. rewrite length_app in Hnil. cbn in Hnil. lia.
  - rewrite Hexit. discriminate.
  - cbn. intros He Hnil. apply (Hinv He).
    apply (f_equal length) in Hnil. rewrite length_insert in Hnil.
    destruct (timeInputs a); [reflexivity | discriminate].
  - unfold timeoutExpires. destruct (pendingTimeouts a); exact Hinv.
  - exact Hinv.
Qed.

(** X13. In every state the window reaches, edit mode comes with an input
    on the page. The converse does not hold: [enterEditMode] does not look
    at [isEditMode], so opening the editor twice and leaving it once ends
    out of edit mode with an input left behind. *)
Theorem edit_mode_has_input (evs : list Event) :
  (isEditMode (state (run evs initialApp)) = true -> timeInputs (run evs initialApp) <> []) /\
  isEditMode (state (run [EvEnterEdit; EvEnterEdit; EvExitEdit false] initialApp)) = false /\
  length (timeInputs (run [EvEnterEdit; EvEnterEdit; EvExitEdit false] initialApp)) = 1%nat.
Proof.
  split; [|split; reflexivity].
  assert (G : forall l a, editing_has_input a -> editing_has_input (run l a)).
  { induction l as [|e l IH]; intros a Ha; [exact Ha|].
    apply IH, editing_step, Ha. }
  apply (G evs initialApp). intros Hf. discriminate.
Qed.

End EngineEdits.

(** ** More on the preset editor *)

Section Editor.
Import SettingsWindow.
Local Open Scope Z_scope.

Lemma presets_of_render ps :
  Forall (fun p => 0 < seconds p < 100 * 3600) ps ->
  presets_of (map render ps) = map relabel ps /\
  existsb invalid_entry (map render ps) = false.
Proof.
  induction 1 as [|p ps Hp _ [IH1 IH2]]; [split; reflexivity|].
  cbn [map]. rewrite (presets_of_cons (render p) (map render ps)), IH1.
  cbn [existsb]. rewrite IH2.
  unfold presets_of, invalid_entry, render. cbn [flat_map value].
  rewrite (preset_text_parses _ Hp). split; reflexivity.
Qed.

(** X14. Saving right after the presets were rendered, with at least one
    preset and every duration between 1 second and 99:59:59, succeeds and
    stores the same durations in the same order; every label is replaced
    by the one [generateLabel] makes from the seconds, so a label such as
    "25 minutes (Pomodoro)" is not kept. A preset of zero seconds in the
    list blocks the save. *)
Theorem save_after_render (w : Window) :
  (presetsVar w <> [] ->
   Forall (fun p => 0 < seconds p < 100 * 3600) (presetsVar w) ->
   fst (savePresets (renderPresets w)) = Saved /\
   exists s, stored (snd (savePresets (renderPresets w))) = Some s /\
             presets s = Some (map relabel (presetsVar w))) /\
  (forall p, In p (presetsVar w) -> seconds p = 0 ->
   fst (savePresets (renderPresets w)) = InvalidEntries /\
   stored (snd (savePresets (renderPresets w))) = stored w).
Proof.
  destruct (savePresets_closed (renderPresets w)) as [marked ->].
  change (inputs (renderPresets w)) with (map render (presetsVar w)).
  split.
  - intros Hne Hall. destruct (presets_of_render _ Hall) as [-> ->].
    destruct (presetsVar w) as [|p ps]; [contradiction|].
    cbn. split; [reflexivity|]. eexists. split; reflexivity.
  - intros p Hp Hz.
    assert (E : existsb invalid_entry (map render (presetsVar w)) = true).
    { apply existsb_exists. exists (render p). split; [apply in_map, Hp|].
      unfold invalid_entry, render. cbn [value]. rewrite Hz. reflexivity. }
    rewrite E. cbn. auto.
Qed.

Lemma save_after_render_witness :
  fst (savePresets defaultWindow) = Saved /\
  (exists s, stored (snd (savePresets defaultWindow)) = Some s /\
             presets s = Some [mkPreset 180 (js "3 minutes");
                               mkPreset 300 (js "5 minutes");
                               mkPreset 1500 (js "25 minutes")]).
Proof.
  destruct (save_after_render (loadPresets (mkWindow [] None [] [] [] false))) as [H _].
  destruct (H ltac:(discriminate)
              ltac:(repeat constructor; cbn; lia)) as [Hs Hst].
  split; [exact Hs | exact Hst].
Defined.

Lemma validateInput_invalid i : snd (validateInput i) = negb (invalid_entry i).
Proof.
  unfold validateInput, invalid_entry.
  destruct (trim (value i)) as [|c v] eqn:Et.
  - rewrite (trim_nil_parse _ Et). reflexivity.
  - rewrite <- Et, parseHHMMSS_trim. destruct (parseHHMMSS (value i)); reflexivity.
Qed.

Lemma presets_of_length ins :
  existsb invalid_entry ins = false -> length (presets_of ins) = length ins.
Proof.
  induction ins as [|i ins IH]; [reflexivity|].
  cbn [existsb]. intros H. apply orb_false_iff in H as [Hi Hins].
  rewrite (presets_of_cons i ins), length_app, (IH Hins).
  unfold presets_of, invalid_entry in *. cbn [flat_map length].
  destruct (parseHHMMSS (value i)) as [n | e |] eqn:E; try discriminate; [reflexivity|].
  exfalso. apply (parseHHMMSS_result (value i)), E.
Qed.

(** X15. [savePresets] and the on-blur check [validateInput] agree: the
    save goes through exactly when there is at least one input and every
    input passes [validateInput]; it then stores one preset per input. *)
Theorem save_iff_all_valid (w : Window) :
  (fst (savePresets w) = Saved <->
   inputs w <> [] /\ forall i, In i (inputs w) -> snd (validateInput i) = true) /\
  (fst (savePresets w) = Saved ->
   exists s l, stored (snd (savePresets w)) = Some s /\ presets s = Some l /\
               length l = length (inputs w)).
Proof.
  destruct (savePresets_closed w) as [marked ->].
  destruct (existsb invalid_entry (inputs w)) eqn:E.
  - split; [split|]; try discriminate.
    intros [_ Hall]. apply existsb_exists in E as (i & Hi & Hinv).
    specialize (Hall i Hi). rewrite validateInput_invalid, Hinv in Hall. discriminate.
  - pose proof (presets_of_length _ E) as Hlen.
    assert (Hall : forall i, In i (inputs w) -> snd (validateInput i) = true).
    { intros i Hi. rewrite validateInput_invalid.
      destruct (invalid_entry i) eqn:Hinv; [|reflexivity].
      assert (existsb invalid_entry (inputs w) = true)
        by (apply existsb_exists; exists i; auto).
      congruence. }
    destruct (inputs w) as [|i ins] eqn:Ei.
    + cbn. split; [split|]; try discriminate. intros [Hne _]. contradiction.
    + destruct (presets_of (i :: ins)) as [|p ps] eqn:Ep; [discriminate|].
      cbn. split; [split|].
      * intros _. split; [discriminate | exact Hall].
      * reflexivity.
      * intros _. eexists. eexists. split; [reflexivity|]. split; [reflexivity|].
        exact Hlen.
Qed.

(** X16. [addPreset] appends the 10-minute preset and draws the inputs
    anew from the presets, so that text typed into the inputs and not yet
    saved is gone. Deleting the preset just added gives the list of before,
    unless that list was empty: the new preset is then the only one and the
    delete is refused. *)
Theorem add_then_delete (w : Window) :
  presetsVar (addPreset w) = presetsVar w ++ [mkPreset 600 (js "10 min")] /\
  (forall typed, inputs (addPreset (with_inputs typed w)) = map render (presetsVar (addPreset w))) /\
  (presetsVar w <> [] ->
   fst (deletePreset (length (presetsVar w)) true (addPreset w)) = Deleted /\
   presetsVar (snd (deletePreset (length (presetsVar w)) true (addPreset w)))
   = presetsVar w) /\
  (presetsVar w = [] ->
   fst (deletePreset 0 true (addPreset w)) = LastPresetError /\
   presetsVar (snd (deletePreset 0 true (addPreset w))) = [mkPreset 600 (js "10 min")]).
Proof.
  split; [reflexivity|]. split; [reflexivity|]. split.
  - intros Hne. unfold deletePreset.
    change (presetsVar (addPreset w)) with (presetsVar w ++ [mkPreset 600 (js "10 min")]).
    rewrite length_app. cbn [length].
    replace (length (presetsVar w) + 1 =? 1)%nat with false
      by (symmetry; apply Nat.eqb_neq; destruct (presetsVar w); [contradiction | cbn; lia]).
    rewrite list_lookup_middle by reflexivity.
    cbn [fst snd renderPresets with_presets with_inputs presetsVar].
    split; [reflexivity|].
    rewrite delete_take_drop, take_app_length.
    rewrite drop_app_ge by lia.
    replace (S (length (presetsVar w)) - length (presetsVar w))%nat with 1%nat by lia.
    cbn. apply app_nil_r.
  - intros Hnil. unfold deletePreset, addPreset. rewrite Hnil. cbn. auto.
Qed.

(** X17. On a list that does not have exactly one preset, [deletePreset]
    with an index outside the list reads [label] of an undefined element:
    the call throws and nothing is removed or redrawn. This covers every
    index on an empty list. *)
Theorem deletePreset_out_of_range (index : nat) (confirmed : bool) (w : Window) :
  length (presetsVar w) <> 1%nat -> (length (presetsVar w) <= index)%nat ->
  deletePreset index confirmed w = (DeleteThrows, w).
Proof.
  intros Hl Hi. unfold deletePreset.
  replace (length (presetsVar w) =? 1)%nat with false
    by (symmetry; apply Nat.eqb_neq; exact Hl).
  rewrite (lookup_ge_None_2 _ _ Hi). reflexivity.
Qed.

Lemma deletePreset_out_of_range_witness :
  deletePreset 3 true defaultWindow = (DeleteThrows, defaultWindow) /\
  fst (deletePreset 0 true (mkWindow [] None [] [] [] false)) = DeleteThrows.
Proof.
  split.
  - apply (deletePreset_out_of_range 3 true defaultWindow); cbn; lia.
  - rewrite (deletePreset_out_of_range 0 true (mkWindow [] None [] [] [] false));
      [reflexivity | cbn; lia | cbn; lia].
Defined.

(** X18. A successful save replaces the presets and nothing else of the
    stored settings: theme, colours and keys are those stored before. With
    nothing stored before, the record is created with empty colours, no
    theme and the keys PageUp and PageDown. *)
Theorem save_keeps_other_settings (w : Window) :
  fst (savePresets w) = Saved ->
  exists s', stored (snd (savePresets w)) = Some s' /\
    presets s' = Some (presets_of (inputs w)) /\
    (forall s, stored w = Some s ->
       theme s' = theme s /\ barColor s' = barColor s /\
       backgroundColor s' = backgroundColor s /\ textColor s' = textColor s /\
       startPauseKey s' = startPauseKey s /\ resetKey s' = resetKey s) /\
    (stored w = None ->
       theme s' = None /\ barColor s' = Some [] /\ backgroundColor s' = Some [] /\
       textColor s' = Some [] /\ startPauseKey s' = Some (js "PageUp") /\
       resetKey s' = Some (js "PageDown")).
Proof.
  destruct (savePresets_closed w) as [marked ->].
  destruct (existsb invalid_entry (inputs w)); [discriminate|].
  destruct (length (presets_of (inputs w)) =? 0)%nat; [discriminate|].
  intros _. cbn [fst snd stored]. eexists. split; [reflexivity|].
  split; [reflexivity|]. split.
  - intros s ->. cbn. auto 10.
  - intros ->. cbn. auto 10.
Qed.

Lemma save_keeps_other_settings_witness :
  exists s', stored (snd (savePresets defaultWindow)) = Some s' /\
             startPauseKey s' = Some (js "PageUp").
Proof.
  destruct (save_keeps_other_settings defaultWindow eq_refl)
    as (s' & Hs & _ & _ & Hnone).
  exists s'. split; [exact Hs|]. apply (Hnone eq_refl).
Defined.

End Editor.

(** ** Themes, the store and the tray *)

Section ShellFacts.
Import MainShell.
Local Open Scope Z_scope.

Lemma presetSelected_defaults presetIndex sh :
  storedPresets sh = None ->
  presetSelected presetIndex sh
  = match defaultSeconds presetIndex with
    | Some s => with_app (setTime s) sh
    | None => sh
    end.
Proof.
  unfold storedPresets, presetSelected, defaultSeconds. intros Hs.
  assert (E : match store sh with
              | Some settings =>
                  match SettingsWindow.presets settings with
                  | Some l => l
                  | None => selectDefaults
                  end
              | None => selectDefaults
              end = selectDefaults)
    by (destruct (store sh); [rewrite Hs|]; reflexivity).
  rewrite E. cbn [selectDefaults length].
  destruct (Z.leb_spec 0 presetIndex); cbn [andb].
  - destruct (Z.ltb_spec presetIndex (Z.of_nat 3)).
    + assert (Hc : presetIndex = 0 \/ presetIndex = 1 \/ presetIndex = 2) by lia.
      destruct Hc as [-> | [-> | ->]]; reflexivity.
    + destruct (Z.eqb_spec presetIndex 0); [lia|].
      destruct (Z.eqb_spec presetIndex 1); [lia|].
      destruct (Z.eqb_spec presetIndex 2); [lia|]. reflexivity.
  - destruct (Z.eqb_spec presetIndex 0); [lia|].
    destruct (Z.eqb_spec presetIndex 1); [lia|].
    destruct (Z.eqb_spec presetIndex 2); [lia|]. reflexivity.
Qed.

Lemma presetSelected_at i p l sh :
  storedPresets sh = Some l -> l !! i = Some p ->
  presetSelected (Z.of_nat i) sh = with_app (setTime (SettingsWindow.seconds p)) sh.
Proof.
  unfold storedPresets, presetSelected. intros Hs Hp.
  destruct (store sh) as [s|]; [|discriminate]. rewrite Hs.
  pose proof (lookup_lt_Some _ _ _ Hp) as Hlt.
  replace (0 <=? Z.of_nat i) with true by (symmetry; apply Z.leb_le; lia).
  replace (Z.of_nat i <? Z.of_nat (length l)) with true
    by (symmetry; apply Z.ltb_lt; lia).
  cbn [andb]. rewrite Nat2Z.id, Hp. reflexivity.
Qed.

(** X19. The "preset-selected" listener sets the timer to the preset at
    the given index of the stored list, and does nothing for an index
    below 0 or past the end of that list; a stored list that is empty
    makes every index invalid, since only a missing list falls back to the
    built-in presets. *)
Theorem presetSelected_spec (presetIndex : Z) (l : list SettingsWindow.PresetTime)
        (sh : Shell) :
  storedPresets sh = Some l ->
  (forall p, 0 <= presetIndex -> l !! Z.to_nat presetIndex = Some p ->
     presetSelected presetIndex sh = with_app (setTime (SettingsWindow.seconds p)) sh) /\
  (presetIndex < 0 \/ Z.of_nat (length l) <= presetIndex ->
     presetSelected presetIndex sh = sh) /\
  (l = [] -> presetSelected presetIndex sh = sh).
Proof.
  unfold storedPresets, presetSelected. intros Hs.
  destruct (store sh) as [s|]; [|discriminate]. rewrite Hs.
  split; [|split].
  - intros p H0 Hp. pose proof (lookup_lt_Some _ _ _ Hp) as Hlt.
    replace (0 <=? presetIndex) with true by (symmetry; apply Z.leb_le; lia).
    replace (presetIndex <? Z.of_nat (length l)) with true
      by (symmetry; apply Z.ltb_lt; lia).
    cbn [andb]. rewrite Hp. reflexivity.
  - intros [Hneg | Hbig].
    + replace (0 <=? presetIndex) with false by (symmetry; apply Z.leb_gt; lia).
      reflexivity.
    + replace (presetIndex <? Z.of_nat (length l)) with false
        by (symmetry; apply Z.ltb_ge; lia).
      rewrite andb_false_r. reflexivity.
  - intros ->. cbn [length]. destruct (0 <=? presetIndex) eqn:E0; [|reflexivity].
    replace (presetIndex <? Z.of_nat 0) with false
      by (symmetry; apply Z.ltb_ge; apply Z.leb_le in E0; lia).
    reflexivity.
Qed.

Lemma presetSelected_spec_witness :
  currentTime (state (app (presetSelected 1
     (shell_with [SettingsWindow.mkPreset 60 (js "1 minute");
                  SettingsWindow.mkPreset 90 (js "1 minute, 30 seconds")])))) = 90 /\
  presetSelected 2
     (shell_with [SettingsWindow.mkPreset 60 (js "1 minute");
                  SettingsWindow.mkPreset 90 (js "1 minute, 30 seconds")])
  = shell_with [SettingsWindow.mkPreset 60 (js "1 minute");
                SettingsWindow.mkPreset 90 (js "1 minute, 30 seconds")].
Proof.
  destruct (presetSelected_spec 1 _ (shell_with
              [SettingsWindow.mkPreset 60 (js "1 minute");
               SettingsWindow.mkPreset 90 (js "1 minute, 30 seconds")]) eq_refl)
    as (Hin & _ & _).
  destruct (presetSelected_spec 2 _ (shell_with
              [SettingsWindow.mkPreset 60 (js "1 minute");
               SettingsWindow.mkPreset 90 (js "1 minute, 30 seconds")]) eq_refl)
    as (_ & Hout & _).
  split.
  - rewrite (Hin _ ltac:(lia) eq_refl). reflexivity.
  - apply Hout. right. cbn. lia.
Defined.

(** X20. [applyTheme] with a name of the table writes a settings record
    made of the theme alone: whatever presets the store held are no longer
    in it, whoever had saved them. The "preset-selected" listener then
    works from the built-in 3, 5 and 25 minutes, while the tray menu still
    lists the presets it was last built from. *)
Theorem theme_change_forgets_presets (themeName : jsstring) (th : Theme) (sh : Shell) :
  lookupTheme themeName = Some th ->
  let sh' := applyTheme themeName sh in
  storedPresets sh' = None /\
  (exists s, store sh' = Some s /\ SettingsWindow.theme s = Some themeName /\
             SettingsWindow.barColor s = Some (barColor th)) /\
  cssBarColor sh' = Some (barColor th) /\
  trayMenu sh' = trayMenu sh /\
  state (app sh') = state (app sh) /\
  (forall presetIndex,
     presetSelected presetIndex sh'
     = match defaultSeconds presetIndex with
       | Some s => with_app (setTime s) sh'
       | None => sh'
       end).
Proof.
  intros Hth sh'.
  assert (E : sh' = mkShell (showTimerWindow (app sh))
                (Some (SettingsWindow.mkSettings None (Some themeName)
                         (Some (barColor th)) (Some (backgroundColor th))
                         (Some (textColor th))
                         (Some (js "PageUp")) (Some (js "PageDown"))))
                (Some (barColor th)) (Some (backgroundColor th)) (Some (textColor th))
                (str_eqb themeName (js "transparent")) (trayMenu sh))
    by (subst sh'; unfold applyTheme; rewrite Hth; reflexivity).
  split; [rewrite E; reflexivity|].
  split; [rewrite E; eexists; repeat split; reflexivity|].
  split; [rewrite E; reflexivity|].
  split; [rewrite E; reflexivity|].
  split; [rewrite E; reflexivity|].
  intros presetIndex. apply presetSelected_defaults. rewrite E. reflexivity.
Qed.

Lemma theme_change_forgets_presets_witness :
  let saved := shell_with [SettingsWindow.mkPreset 60 (js "1 minute")] in
  currentTime (state (app (presetSelected 0 saved))) = 60 /\
  currentTime (state (app (presetSelected 0 (applyTheme (js "dark") saved)))) = 180.
Proof.
  intros saved.
  destruct (theme_change_forgets_presets (js "dark") _ saved eq_refl)
    as (_ & _ & _ & _ & _ & Hsel).
  split; [reflexivity|]. rewrite (Hsel 0). reflexivity.
Defined.

(** X21. [loadSettings] on a store that names a theme of the table builds
    the tray menu from the stored presets (the built-in ones if none are
    stored) and, by applying the theme, leaves the store without presets:
    after one start of the window the presets shown in the tray are no
    longer the ones a selection reads. With no settings stored it applies
    the blue theme and builds the tray from the built-in presets. *)
Theorem loadSettings_spec (sh : Shell) :
  (forall s themeName th,
     store sh = Some s -> SettingsWindow.theme s = Some themeName ->
     themeName <> [] -> lookupTheme themeName = Some th ->
     trayMenu (loadSettings sh)
     = Some (match SettingsWindow.presets s with Some l => l | None => loadDefaults end) /\
     storedPresets (loadSettings sh) = None /\
     cssBarColor (loadSettings sh) = Some (barColor th)) /\
  (forall s,
     store sh = Some s -> SettingsWindow.theme s = None ->
     store (loadSettings sh) = store sh /\
     trayMenu (loadSettings sh)
     = Some (match SettingsWindow.presets s with Some l => l | None => loadDefaults end)) /\
  (store sh = None ->
     trayMenu (loadSettings sh) = Some loadDefaults /\
     exists s, store (loadSettings sh) = Some s /\
               SettingsWindow.theme s = Some (js "blue") /\
               SettingsWindow.presets s = None).
Proof.
  split; [|split].
  - intros s themeName th Hs Ht Hne Hth. unfold loadSettings. rewrite Hs, Ht, Hth.
    destruct themeName as [|c r]; [contradiction|]. cbn [truthy andb].
    unfold applyTheme. rewrite Hth. cbn. auto.
  - intros s Hs Ht. unfold loadSettings. rewrite Hs, Ht. cbn. auto.
  - intros Hs. unfold loadSettings. rewrite Hs. cbn. split; [reflexivity|].
    eexists. repeat split; reflexivity.
Qed.

Lemma loadSettings_spec_witness :
  let stored := SettingsWindow.mkSettings
                  (Some [SettingsWindow.mkPreset 60 (js "1 minute")])
                  (Some (js "dark")) None None None None None in
  trayMenu (loadSettings (initialShell (Some stored)))
  = Some [SettingsWindow.mkPreset 60 (js "1 minute")] /\
  storedPresets (loadSettings (initialShell (Some stored))) = None.
Proof.
  intros stored.
  destruct (loadSettings_spec (initialShell (Some stored))) as (H & _ & _).
  destruct (H stored (js "dark") _ eq_refl eq_refl ltac:(discriminate) eq_refl)
    as (Htray & Hstore & _).
  split; [exact Htray | exact Hstore].
Defined.

(** X22. When the preset editor saves, the timer window's store holds the
    saved presets and its tray menu is rebuilt from them, so that the tray
    and the store agree; a selection then sets the timer to the duration
    the editor stored at that index, a positive number below 100 hours.
    A save that is turned down changes nothing in the timer window. *)
Theorem editor_save_reaches_tray (w : SettingsWindow.Window) (sh : Shell) :
  (fst (SettingsWindow.savePresets w) = SettingsWindow.Saved ->
     storedPresets (editorSaves w sh) = Some (presets_of (SettingsWindow.inputs w)) /\
     trayMenu (editorSaves w sh) = Some (presets_of (SettingsWindow.inputs w)) /\
     app (editorSaves w sh) = app sh /\
     forall i p, presets_of (SettingsWindow.inputs w) !! i = Some p ->
       presetSelected (Z.of_nat i) (editorSaves w sh)
       = with_app (setTime (SettingsWindow.seconds p)) (editorSaves w sh) /\
       0 < SettingsWindow.seconds p) /\
  (fst (SettingsWindow.savePresets w) <> SettingsWindow.Saved -> editorSaves w sh = sh).
Proof.
  unfold editorSaves.
  destruct (savePresets_closed w) as [marked ->].
  destruct (existsb invalid_entry (SettingsWindow.inputs w)).
  { split; [discriminate | reflexivity]. }
  destruct (length (presets_of (SettingsWindow.inputs w)) =? 0)%nat.
  { split; [discriminate | reflexivity]. }
  split; [|intros Hne; contradiction].
  intros _. cbn [fst snd SettingsWindow.stored SettingsWindow.presets
                 SettingsWindow.set_presets].
  split; [reflexivity|]. split; [reflexivity|]. split; [reflexivity|].
  intros i p Hp. split.
  - apply (presetSelected_at i p (presets_of (SettingsWindow.inputs w)));
      [reflexivity | exact Hp].
  - apply (presets_of_positive (SettingsWindow.inputs w)).
    rewrite <- list_elem_of_In. apply list_elem_of_lookup. eauto.
Qed.

Lemma str_eqb_eq a b : str_eqb a b = true <-> a = b.
Proof.
  revert b. induction a as [|x a IH]; intros [|y b]; cbn; split; try discriminate;
    try reflexivity.
  - intros H. apply andb_true_iff in H as [Hx Ha]. apply N.eqb_eq in Hx.
    apply IH in Ha. congruence.
  - intros [= -> ->]. rewrite N.eqb_refl. apply IH. reflexivity.
Qed.

(** X23. The bar is recoloured from the progress only while the stored
    theme is the dynamic one: after [applyTheme] with the name "dynamic"
    [updateDynamicColor] sets the gradient of the band of the ratio, after
    [applyTheme] with any other name of the table, and with nothing
    stored, it sets nothing. *)
Theorem dynamic_colour_needs_dynamic_theme (themeName : jsstring) (th : Theme)
        (sh : Shell) (progress : float) :
  lookupTheme themeName = Some th ->
  let storedTheme (x : Shell) :=
    match store x with Some s => SettingsWindow.theme s | None => None end in
  (themeName = js "dynamic" ->
   updateDynamicColor (storedTheme (applyTheme themeName sh)) progress
   = Some (dynamicGradient progress)) /\
  (themeName <> js "dynamic" ->
   updateDynamicColor (storedTheme (applyTheme themeName sh)) progress = None) /\
  updateDynamicColor None progress = None /\
  In (dynamicGradient progress) bands.
Proof.
  intros Hth storedTheme. subst storedTheme. unfold applyTheme. rewrite Hth.
  cbn [store SettingsWindow.theme updateDynamicColor].
  split; [|split; [|split]].
  - intros ->. reflexivity.
  - intros Hne. destruct (str_eqb themeName (js "dynamic")) eqn:E; [|reflexivity].
    apply str_eqb_eq in E. contradiction.
  - reflexivity.
  - unfold dynamicGradient, bands.
    repeat match goal with
      | |- context [(?t <? progress)%float] => destruct (t <? progress)%float
      end; cbn; auto 12.
Qed.

Lemma dynamic_colour_needs_dynamic_theme_witness :
  updateDynamicColor
    (match store (applyTheme (js "dynamic") (initialShell None)) with
     | Some s => SettingsWindow.theme s
     | None => None
     end) 0.95%float = Some deepGreen /\
  updateDynamicColor
    (match store (applyTheme (js "dark") (initialShell None)) with
     | Some s => SettingsWindow.theme s
     | None => None
     end) 0.95%float = None.
Proof.
  destruct (dynamic_colour_needs_dynamic_theme (js "dynamic") _ (initialShell None)
              0.95%float eq_refl) as (Hdyn & _).
  destruct (dynamic_colour_needs_dynamic_theme (js "dark") _ (initialShell None)
              0.95%float eq_refl) as (_ & Hother & _).
  split; [rewrite (Hdyn eq_refl); reflexivity|].
  apply Hother. vm_compute. discriminate.
Defined.

End ShellFacts.
